(** * RealtorScraper: a shallow embedding of [main.py]

    The scraper is one Python class, [RealtorScraper], that drives a browser:
    it loads up to five result pages for a ZIP code, reads eight text fields
    from every listing card and writes the collected records to [output.csv].

    The embedding keeps the shape of the source.

    - The attributes [zipcode], [page] and [data] of the object are fields of
      the record [scraper].  The browser handle [self.driver] is represented by
      the number of navigations it has performed and by the chronological
      [trace] of the calls made on it; the file written by pandas is an entry
      of the same trace.
    - The browser and the web site are the environment.  They are a [world]:
      what each driver call answers, as a value or as a raised exception.
    - Python exceptions are values of [exn].  The class matters: every handler
      of the source is [except Exception], which lets [KeyboardInterrupt] and
      [SystemExit] through.
    - Methods are computations in the monad [M], state passing with
      exceptions; the state survives a raise, as the attributes of a Python
      object do.
    - [logging] calls change neither the object nor the control flow and are
      left out.  The lengths of the random sleeps are not modelled, only that
      a sleep happens. *)

From Stdlib Require Import ZArith List String Ascii Bool Lia.
From Stdlib Require Import Decimal DecimalString DecimalZ.
Import ListNotations.

Open Scope string_scope.
Open Scope Z_scope.

(** ** Python values used by the scraper *)

(** [str(n)] for an [int]: decimal digits, a leading minus sign when negative. *)
Definition str_int (n : Z) : string := NilEmpty.string_of_int (Z.to_int n).

(** [x or d] on strings: the empty string is the only falsy [str]. *)
Definition py_or (x d : string) : string :=
  match x with
  | EmptyString => d
  | String _ _ => x
  end.

(** [str.isspace] on one character.  Characters stand for code points below
    256; these are the ones Python counts as whitespace there. *)
Definition isspace (c : ascii) : bool :=
  let n := nat_of_ascii c in
  (((9 <=? n) && (n <=? 13)) || ((28 <=? n) && (n <=? 32))
   || (n =? 133) || (n =? 160))%nat.

(** [text.split()]: the maximal runs of non-whitespace characters.  [word]
    holds the run being read, most recent character first. *)
Fixpoint split_from (word : list ascii) (s : string) : list string :=
  match s with
  | EmptyString =>
      match word with
      | [] => []
      | _ :: _ => [string_of_list_ascii (List.rev word)]
      end
  | String c rest =>
      if isspace c then
        match word with
        | [] => split_from [] rest
        | _ :: _ => string_of_list_ascii (List.rev word) :: split_from [] rest
        end
      else split_from (c :: word) rest
  end.

Definition split (s : string) : list string := split_from [] s.

(** [sep.join(parts)]. *)
Fixpoint join (sep : string) (parts : list string) : string :=
  match parts with
  | [] => ""
  | [p] => p
  | p :: rest => p ++ sep ++ join sep rest
  end.

(** Values stored in a record: a [str], or [None] (what [get_attribute]
    answers when the attribute is absent). *)
Inductive pyval : Type :=
  | PyStr (s : string)
  | PyNone.

(** A [dict] with string keys.  Python dictionaries keep insertion order and
    pandas reads the columns in that order, so the order is part of the value. *)
Definition record : Type := list (string * pyval).

(** ** Exceptions *)

(** The two kinds of exception the source distinguishes. *)
Inductive exn : Type :=
  | Exc (msg : string)        (* an instance of [Exception]: all Selenium errors *)
  | BaseExc (msg : string).   (* [KeyboardInterrupt], [SystemExit] *)

(** [isinstance(e, Exception)]. *)
Definition is_Exception (e : exn) : bool :=
  match e with
  | Exc _ => true
  | BaseExc _ => false
  end.

(** What a call produces: a value or a raised exception. *)
Inductive result (A : Type) : Type :=
  | Ret (a : A)
  | Raise (e : exn).

Arguments Ret {A} a.
Arguments Raise {A} e.

(** A call that produces a value or raises an instance of [Exception]. *)
Definition catchable {A : Type} (r : result A) : bool :=
  match r with
  | Ret _ => true
  | Raise e => is_Exception e
  end.

Definition raises {A : Type} (r : result A) : bool :=
  match r with
  | Ret _ => false
  | Raise _ => true
  end.

(** ** The environment *)

(** A listing card ([prop] in [scrape_data]) as the scraper sees it: what
    scrolling to it and each of the eight lookups answer.  A lookup is the whole
    expression of the source, [find_element(...)] followed by [.text] or
    [.get_attribute('href')]; it raises when the element is not found. *)
Record element : Type := {
  scroll_result : result unit;
  link_lookup : result pyval;
  status_lookup : result string;
  price_lookup : result string;
  bed_lookup : result string;
  bath_lookup : result string;
  sqft_lookup : result string;
  lot_size_lookup : result string;
  address_lookup : result string
}.

(** The browser and the site.  An answer depends on the number [n] of
    navigations the session has made when the call is issued: [get_result n]
    answers the [driver.get] that comes after [n] earlier ones,
    [wait_result n] the wait for the container and [find_elements_result n]
    the listing of the cards once [n] navigations have been made. *)
Record world : Type := {
  get_result : nat -> string -> result unit;
  wait_result : nat -> result unit;
  find_elements_result : nat -> result (list element)
}.

(** ** The scraper object *)

(** A table as [to_csv(index=False)] writes it: one header line and one line
    per row; a cell is empty where the row has no value for the column. *)
Record table : Type := {
  header : list string;
  rows : list (list (option pyval))
}.

Inductive event : Type :=
  | EvSleep                               (* time.sleep(random.uniform(..)) *)
  | EvGet (url : string)                  (* driver.get(url) *)
  | EvWait                                (* WebDriverWait(driver, 10).until(..) *)
  | EvFindElements                        (* driver.find_elements(..) *)
  | EvScroll                              (* driver.execute_script(scrollIntoView, prop) *)
  | EvQuit                                (* driver.quit() *)
  | EvToCsv (path : string) (t : table).  (* DataFrame.to_csv(path, index=False) *)

Record scraper : Type := {
  zipcode : Z;
  page : Z;
  data : list record;
  navigations : nat;
  trace : list event
}.

(** [RealtorScraper.__init__]. *)
Definition init (zip : Z) : scraper :=
  {| zipcode := zip; page := 1; data := []; navigations := 0; trace := [] |}.

Definition set_page (p : Z) (s : scraper) : scraper :=
  {| zipcode := zipcode s; page := p; data := data s;
     navigations := navigations s; trace := trace s |}.

Definition set_data (d : list record) (s : scraper) : scraper :=
  {| zipcode := zipcode s; page := page s; data := d;
     navigations := navigations s; trace := trace s |}.

Definition set_navigations (n : nat) (s : scraper) : scraper :=
  {| zipcode := zipcode s; page := page s; data := data s;
     navigations := n; trace := trace s |}.

(** The call [ev] is made: it is added at the end of the trace. *)
Definition record_event (ev : event) (s : scraper) : scraper :=
  {| zipcode := zipcode s; page := page s; data := data s;
     navigations := navigations s; trace := trace s ++ [ev] |}.

(** ** Computations: state passing with exceptions *)

Definition M (A : Type) : Type := scraper -> result A * scraper.

Definition ret {A : Type} (a : A) : M A := fun s => (Ret a, s).

Definition bind {A B : Type} (c : M A) (k : A -> M B) : M B :=
  fun s =>
    match c s with
    | (Ret a, s') => k a s'
    | (Raise e, s') => (Raise e, s')
    end.

Notation "x <- c ;; k" := (bind c (fun x => k))
  (at level 61, c at next level, right associativity).
Notation "c ;; k" := (bind c (fun _ => k))
  (at level 61, right associativity).

(** The answer of the environment, with the state untouched. *)
Definition lift {A : Type} (r : result A) : M A := fun s => (r, s).

(** [try: body / except Exception as e: handler e].  An exception that is not
    an instance of [Exception] is not caught. *)
Definition try_except {A : Type} (body : M A) (handler : exn -> M A) : M A :=
  fun s =>
    match body s with
    | (Ret a, s') => (Ret a, s')
    | (Raise e, s') => if is_Exception e then handler e s' else (Raise e, s')
    end.

(** [for x in xs: body x]. *)
Fixpoint for_each {A : Type} (body : A -> M unit) (xs : list A) : M unit :=
  match xs with
  | [] => ret tt
  | x :: rest => body x ;; for_each body rest
  end.

(** [range(lo, hi)]. *)
Definition range (lo hi : Z) : list Z :=
  map (fun i => lo + Z.of_nat i) (seq 0 (Z.to_nat (hi - lo))).

(** ** pandas: [DataFrame(list_of_dicts)] and [to_csv] *)

(** The keys of [keys] not yet among [cols], added after them in order. *)
Fixpoint add_columns (cols keys : list string) : list string :=
  match keys with
  | [] => cols
  | k :: rest =>
      if existsb (String.eqb k) cols then add_columns cols rest
      else add_columns (cols ++ [k]) rest
  end.

(** The columns of [DataFrame(recs)]: the keys in the order first seen. *)
Definition columns (recs : list record) : list string :=
  fold_left (fun cols r => add_columns cols (map fst r)) recs [].

(** [r.get(k)]. *)
Fixpoint lookup (k : string) (r : record) : option pyval :=
  match r with
  | [] => None
  | (k', v) :: rest => if String.eqb k k' then Some v else lookup k rest
  end.

Definition DataFrame (recs : list record) : table :=
  {| header := columns recs;
     rows := map (fun r => map (fun c => lookup c r) (columns recs)) recs |}.

Definition to_csv (t : table) (path : string) : M unit :=
  fun s => (Ret tt, record_event (EvToCsv path t) s).

(** ** The methods of [RealtorScraper] *)

Definition base_url : string :=
  "https://www.realtor.com/realestateandhomes-search/".

(** [get_page_url]. *)
Definition get_page_url (s : scraper) : string :=
  base_url ++ str_int (zipcode s) ++ "/pg-" ++ str_int (page s).

(** The eight keys of a record, in the order the dictionary literal of
    [scrape_data] lists them. *)
Definition field_names : list string :=
  ["Property Status"; "Price"; "Bed"; "Bath"; "Sqft"; "Lot Size"; "Address";
   "Link"].

Section Methods.

Variable w : world.

(** *** Calls on the driver *)

Definition sleep : M unit := fun s => (Ret tt, record_event EvSleep s).

Definition driver_get (url : string) : M unit :=
  fun s =>
    (get_result w (navigations s) url,
     record_event (EvGet url) (set_navigations (S (navigations s)) s)).

Definition wait_until_container : M unit :=
  fun s => (wait_result w (navigations s), record_event EvWait s).

Definition find_elements : M (list element) :=
  fun s =>
    (find_elements_result w (navigations s), record_event EvFindElements s).

Definition scroll_into_view (prop : element) : M unit :=
  fun s => (scroll_result prop, record_event EvScroll s).

Definition driver_quit : M unit := fun s => (Ret tt, record_event EvQuit s).

(** *** [load_page] *)

(** The body of the [try] in [load_page]; [Some b] stands for [return b]. *)
Definition load_attempt (url : string) : M (option bool) :=
  sleep ;;
  driver_get url ;;
  wait_until_container ;;
  ret (Some true).

(** The [for retry in ...] loop of [load_page] and the two lines after it. *)
Fixpoint load_page_loop (url : string) (retry_values : list Z) : M bool :=
  match retry_values with
  | [] => ret false
  | _ :: rest =>
      r <- try_except (load_attempt url) (fun _ => ret None) ;;
      match r with
      | Some b => ret b
      | None => load_page_loop url rest
      end
  end.

Definition load_page (retries : Z) : M bool :=
  fun s => load_page_loop (get_page_url s) (range 1 (retries + 1)) s.

(** [retries=3] in the signature of [load_page]. *)
Definition default_retries : Z := 3.

(** *** [scrape_data] *)

Definition append_data (r : record) : M unit :=
  fun s => (Ret tt, set_data (data s ++ [r]) s).

(** The body of the inner [try]: the eight lookups in the order of the
    source, the dictionary and the append. *)
Definition extract_listing (prop : element) : M unit :=
  link <- lift (link_lookup prop) ;;
  status <- lift (status_lookup prop) ;;
  price <- lift (price_lookup prop) ;;
  bed <- lift (bed_lookup prop) ;;
  bath <- lift (bath_lookup prop) ;;
  sqft <- lift (sqft_lookup prop) ;;
  lot_size <- lift (lot_size_lookup prop) ;;
  address_text <- lift (address_lookup prop) ;;
  let address := join " " (split address_text) in
  append_data
    [("Property Status", PyStr status);
     ("Price", PyStr price);
     ("Bed", PyStr (py_or bed "N/A"));
     ("Bath", PyStr (py_or bath "N/A"));
     ("Sqft", PyStr (py_or sqft "N/A"));
     ("Lot Size", PyStr (py_or lot_size "N/A"));
     ("Address", PyStr address);
     ("Link", link)].

(** The body of [for prop in properties]. *)
Definition scrape_listing (prop : element) : M unit :=
  scroll_into_view prop ;;
  sleep ;;
  try_except (extract_listing prop) (fun _ => ret tt).

Definition scrape_data : M unit :=
  try_except
    (properties <- find_elements ;;
     for_each scrape_listing properties)
    (fun _ => ret tt).

(** *** [run] *)

(** The [while self.page <= 5] loop.  [fuel] bounds the number of times the
    body is entered; [None] means the bound was too small. *)
Fixpoint run_loop (fuel : nat) (s : scraper) : option (result unit * scraper) :=
  if page s <=? 5 then
    match fuel with
    | O => None
    | S fuel' =>
        match load_page default_retries s with
        | (Raise e, s1) => Some (Raise e, s1)
        | (Ret false, s1) => Some (Ret tt, s1)
        | (Ret true, s1) =>
            match scrape_data s1 with
            | (Raise e, s2) => Some (Raise e, s2)
            | (Ret tt, s2) => run_loop fuel' (set_page (page s2 + 1) s2)
            end
        end
    end
  else Some (Ret tt, s).

(** The lines of [run] after the [try ... finally]. *)
Definition save_output : M unit :=
  fun s =>
    match data s with
    | [] => (Ret tt, s)
    | _ :: _ => to_csv (DataFrame (data s)) "output.csv" s
    end.

(** [run]: the loop, [driver.quit()] in the [finally] clause whatever the
    loop did, then the output when the loop did not raise. *)
Definition run (s : scraper) : option (result unit * scraper) :=
  match run_loop (Z.to_nat (6 - page s)) s with
  | None => None
  | Some (r, s1) =>
      match driver_quit s1 with
      | (Raise e, s2) => Some (Raise e, s2)
      | (Ret tt, s2) =>
          match r with
          | Raise e => Some (Raise e, s2)
          | Ret tt => Some (save_output s2)
          end
      end
  end.

End Methods.

(** * The script around the scraper *)

(** The module-level code: the constant [CHROME_OPTIONS], the launch of the
    browser in [__init__], [main] and the [__main__] block that reads the ZIP
    code from the command line. *)

Definition CHROME_OPTIONS : list string :=
  ["--no-first-run"; "--no-service-autorun";
   "--disable-blink-features=AutomationControlled"].

(** ** [int(text)] *)

(** The whitespace [int()] skips around a number: tab to carriage return and
    the plain space, and, for a text that is not ASCII, the other whitespace
    code points, of which NEL and the no-break space lie below 256.  The
    separators 28 to 31, whitespace for [str.split], are not skipped. *)
Definition int_space (c : ascii) : bool :=
  let n := nat_of_ascii c in
  (((9 <=? n) && (n <=? 13)) || (n =? 32) || (n =? 133) || (n =? 160))%nat.

Definition is_digit (c : ascii) : bool :=
  let n := nat_of_ascii c in ((48 <=? n) && (n <=? 57))%nat.

Fixpoint lstrip (s : string) : string :=
  match s with
  | EmptyString => EmptyString
  | String c rest => if int_space c then lstrip rest else s
  end.

Definition rev_string (s : string) : string :=
  string_of_list_ascii (List.rev (list_ascii_of_string s)).

(** The text without the whitespace at its two ends. *)
Definition strip (s : string) : string :=
  rev_string (lstrip (rev_string (lstrip s))).

(** The digits of [s] when [s] is made of digits and of single underscores
    that each follow a digit and precede one. [after_underscore] tells that
    the character before [s] was an underscore. *)
Fixpoint scan_digits (after_underscore : bool) (s : string) : option string :=
  match s with
  | EmptyString => if after_underscore then None else Some EmptyString
  | String c rest =>
      if is_digit c then option_map (String c) (scan_digits false rest)
      else if Ascii.eqb c "_" then
        if after_underscore then None else scan_digits true rest
      else None
  end.

(** The digits of the text after the sign: it must start with a digit. *)
Definition int_digits (body : string) : option string :=
  match body with
  | EmptyString => None
  | String c _ => if is_digit c then scan_digits false body else None
  end.

Definition ValueError : exn := Exc "ValueError".

(** [int(text)] in base 10.  [max_str_digits] is the interpreter's limit on
    the number of digits ([sys.get_int_max_str_digits()], 4300 by default
    where the limit exists, never set below 640); 0 stands for no limit. *)
Definition py_int (max_str_digits : nat) (text : string) : result Z :=
  let t := strip text in
  let (negative, body) :=
    match t with
    | String "-" rest => (true, rest)
    | String "+" rest => (false, rest)
    | _ => (false, t)
    end in
  match int_digits body with
  | None => Raise ValueError
  | Some digits =>
      if negb (max_str_digits =? 0)%nat
         && (max_str_digits <? String.length digits)%nat
      then Raise ValueError
      else
        match NilEmpty.uint_of_string digits with
        | Some d => Ret (Z.of_int (if negative then Neg d else Pos d))
        | None => Raise ValueError
        end
  end.

(** ** [__init__], [main] and [__main__] *)

(** The machine the script runs on: the digit limit of its interpreter, what
    [uc.Chrome(options=...)] answers for a list of arguments, and the
    browser and site it then drives. *)
Record host : Type := {
  max_str_digits : nat;
  chrome_result : list string -> result unit;
  site : world
}.

(** [RealtorScraper.__init__]: the attributes, then the options and the
    launch of the browser, which may raise. *)
Definition new_scraper (h : host) (zipcode : Z) : result scraper :=
  let options :=
    fold_left (fun options arg => options ++ [arg])%list CHROME_OPTIONS [] in
  match chrome_result h options with
  | Ret _ => Ret (init zipcode)
  | Raise e => Raise e
  end.

(** How the process ends: with an exception raised before a scraper exists,
    or with what [run] returned or raised and the scraper it left. *)
Inductive outcome : Type :=
  | Aborted (e : exn)
  | Ran (r : result unit) (s : scraper).

(** [main(zipcode)]. *)
Definition main (h : host) (zipcode : Z) : option outcome :=
  match new_scraper h zipcode with
  | Raise e => Some (Aborted e)
  | Ret s =>
      match run (site h) s with
      | None => None
      | Some (r, s') => Some (Ran r s')
      end
  end.

(** The [__main__] block, for [sys.argv = argv]. *)
Definition script (h : host) (argv : list string) : option outcome :=
  let zipcode :=
    match argv with
    | _ :: arg :: _ => py_int (max_str_digits h) arg
    | _ => Ret 75034
    end in
  match zipcode with
  | Raise e => Some (Aborted e)
  | Ret z => main h z
  end.

(** * Vocabulary of the statements *)

(** ** Texts *)

(** [c] occurs in [s]. *)
Fixpoint occurs (c : ascii) (s : string) : bool :=
  match s with
  | EmptyString => false
  | String c' rest => Ascii.eqb c c' || occurs c rest
  end.

(** A word: a non-empty text without whitespace. *)
Definition word (w : string) : Prop :=
  w <> "" /\ Forall (fun c => isspace c = false) (list_ascii_of_string w).

(** The non-whitespace characters of a text, in order. *)
Definition letters (s : string) : list ascii :=
  filter (fun c => negb (isspace c)) (list_ascii_of_string s).

(** Reading [s] after a character that was whitespace or not
    ([after_space]): every whitespace character is a plain space, none
    follows another, and the text does not end on one. *)
Fixpoint tidy_after (after_space : bool) (s : string) : bool :=
  match s with
  | EmptyString => negb after_space
  | String c rest =>
      if isspace c
      then Ascii.eqb c " " && negb after_space && tidy_after true rest
      else tidy_after false rest
  end.

(** A text that is empty or made of words with one plain space between
    them: no whitespace at either end, no other whitespace character, no
    two in a row. *)
Definition tidy (s : string) : bool :=
  match s with
  | EmptyString => true
  | String _ _ => tidy_after true s
  end.

(** A text made of decimal digits only. *)
Definition all_digits (s : string) : bool :=
  forallb is_digit (list_ascii_of_string s).

(** ** Traces *)

(** A call made while browsing: anything but [quit] and [to_csv]. *)
Definition browsing (ev : event) : bool :=
  match ev with
  | EvQuit | EvToCsv _ _ => false
  | _ => true
  end.

(** The number of [driver.get] calls among [evs]. *)
Fixpoint count_gets (evs : list event) : nat :=
  match evs with
  | [] => 0
  | EvGet _ :: rest => S (count_gets rest)
  | _ :: rest => count_gets rest
  end.

(** The number of [driver.find_elements] calls among [evs]. *)
Fixpoint count_finds (evs : list event) : nat :=
  match evs with
  | [] => 0
  | EvFindElements :: rest => S (count_finds rest)
  | _ :: rest => count_finds rest
  end.

(** The files written by the calls of a trace, oldest first. *)
Fixpoint writes (evs : list event) : list (string * table) :=
  match evs with
  | [] => []
  | EvToCsv path t :: rest => (path, t) :: writes rest
  | _ :: rest => writes rest
  end.

(** The scraper after the scroll and the sleep that start the loop body. *)
Definition shown (s0 : scraper) : scraper :=
  record_event EvSleep (record_event EvScroll s0).

(** ** What a computation changes *)

(** A record with the eight keys of the dictionary literal, in its order. *)
Definition has_fields (r : record) : Prop := map fst r = field_names.

(** From [s] to [s'] the scraper has only browsed: the ZIP code is the same,
    records with the eight keys were appended, browsing calls were added to
    the trace, and the navigation counter moved by the number of [driver.get]
    calls. *)
Record browsed (s s' : scraper) : Prop := {
  browsed_zipcode : zipcode s' = zipcode s;
  browsed_data :
    exists recs, data s' = (data s ++ recs)%list /\ Forall has_fields recs;
  browsed_trace :
    exists evs,
      trace s' = (trace s ++ evs)%list /\ forallb browsing evs = true
      /\ navigations s' = (navigations s + count_gets evs)%nat
}.

(** The same, within one page. *)
Definition stepped (s s' : scraper) : Prop :=
  browsed s s' /\ page s' = page s.

(** From [s] to [s'] the cards of the page were not listed: the calls added
    to the trace hold no [find_elements]. *)
Definition unlisted (s s' : scraper) : Prop :=
  exists evs, trace s' = (trace s ++ evs)%list /\ count_finds evs = 0%nat.

(** [c] relates the state it starts from to the state it leaves, whether it
    returns or raises. *)
Definition preserves {A : Type} (R : scraper -> scraper -> Prop) (c : M A) : Prop :=
  forall s, R s (snd (c s)).

(** ** Worlds that raise only instances of [Exception] *)

(** The eight lookups of a card produce a value or an [Exception]. *)
Definition lookups_catchable (prop : element) : bool :=
  catchable (link_lookup prop) && catchable (status_lookup prop)
  && catchable (price_lookup prop) && catchable (bed_lookup prop)
  && catchable (bath_lookup prop) && catchable (sqft_lookup prop)
  && catchable (lot_size_lookup prop) && catchable (address_lookup prop).

Definition element_catchable (prop : element) : bool :=
  catchable (scroll_result prop) && lookups_catchable prop.

(** Navigation fails only with instances of [Exception] (as Selenium's
    errors are): no interrupt arrives during [driver.get] or the wait. *)
Definition loads_catchable (w : world) : Prop :=
  (forall n url, catchable (get_result w n url) = true)
  /\ (forall n, catchable (wait_result w n) = true).

(** The same for reading a page: listing the cards, scrolling to one, and
    the lookups on it. *)
Definition pages_catchable (w : world) : Prop :=
  forall n,
    match find_elements_result w n with
    | Ret props => forallb element_catchable props = true
    | Raise e => is_Exception e = true
    end.

(** [c] returns or raises an instance of [Exception]. *)
Definition safe {A : Type} (c : M A) : Prop :=
  forall s, catchable (fst (c s)) = true.

(** The attempt made as navigation number [n] of the session succeeds: the
    [driver.get] returns and so does the wait for the container after it. *)
Definition attempt_succeeds (w : world) (url : string) (n : nat) : bool :=
  negb (raises (get_result w n url)) && negb (raises (wait_result w (S n))).

(** ** Sample cards and sites *)

Definition full_card : element :=
  {| scroll_result := Ret tt;
     link_lookup := Ret (PyStr "https://www.realtor.com/realestateandhomes-detail/M1");
     status_lookup := Ret "House for sale";
     price_lookup := Ret "$450,000";
     bed_lookup := Ret "3";
     bath_lookup := Ret "2";
     sqft_lookup := Ret "1,850";
     lot_size_lookup := Ret "7,405";
     address_lookup := Ret "12 Oak St  Frisco, TX 75034" |}.

(** A card without the beds item: the lookup raises Selenium's
    [NoSuchElementException]. *)
Definition card_without_beds : element :=
  {| scroll_result := Ret tt;
     link_lookup := link_lookup full_card;
     status_lookup := Ret "Land for sale";
     price_lookup := Ret "$95,000";
     bed_lookup := Raise (Exc "NoSuchElementException");
     bath_lookup := Ret "1";
     sqft_lookup := Ret "900";
     lot_size_lookup := Ret "0.5";
     address_lookup := address_lookup full_card |}.

(** A card without the price element. *)
Definition card_without_price : element :=
  {| scroll_result := Ret tt;
     link_lookup := link_lookup full_card;
     status_lookup := status_lookup full_card;
     price_lookup := Raise (Exc "NoSuchElementException");
     bed_lookup := bed_lookup full_card;
     bath_lookup := bath_lookup full_card;
     sqft_lookup := sqft_lookup full_card;
     lot_size_lookup := lot_size_lookup full_card;
     address_lookup := address_lookup full_card |}.

(** A card whose beds and lot-size items are present with no text. *)
Definition card_with_blanks : element :=
  {| scroll_result := Ret tt;
     link_lookup := link_lookup full_card;
     status_lookup := Ret "";
     price_lookup := Ret "$95,000";
     bed_lookup := Ret "";
     bath_lookup := Ret "1";
     sqft_lookup := Ret "900";
     lot_size_lookup := Ret "";
     address_lookup := Ret "" |}.

(** A card the page cannot scroll to. *)
Definition unreachable_card : element :=
  {| scroll_result := Raise (Exc "JavascriptException");
     link_lookup := link_lookup full_card;
     status_lookup := status_lookup full_card;
     price_lookup := price_lookup full_card;
     bed_lookup := bed_lookup full_card;
     bath_lookup := bath_lookup full_card;
     sqft_lookup := sqft_lookup full_card;
     lot_size_lookup := lot_size_lookup full_card;
     address_lookup := address_lookup full_card |}.

(** A site where every navigation succeeds and every page shows [props]. *)
Definition steady_world (props : list element) : world :=
  {| get_result := fun _ _ => Ret tt;
     wait_result := fun _ => Ret tt;
     find_elements_result := fun _ => Ret props |}.

(** A site whose first page load times out and whose later ones succeed. *)
Definition slow_start_world : world :=
  {| get_result := fun _ _ => Ret tt;
     wait_result :=
       fun n =>
         match n with
         | 1%nat => Raise (Exc "TimeoutException")
         | _ => Ret tt
         end;
     find_elements_result := fun _ => Ret [full_card] |}.

(** A scraper that already holds one record, as [run] finds it when records
    were collected before. *)
Definition scraper_with_record : scraper :=
  set_data
    [[("Property Status", PyStr "Condo for sale");
      ("Price", PyStr "$210,000");
      ("Bed", PyStr "2");
      ("Bath", PyStr "1");
      ("Sqft", PyStr "N/A");
      ("Lot Size", PyStr "N/A");
      ("Address", PyStr "3 Elm St Frisco, TX 75034");
      ("Link", PyNone)]]
    (init 75034).

(** A site where the user interrupts the second navigation. *)
Definition interrupted_world : world :=
  {| get_result :=
       fun n _ =>
         match n with
         | 1%nat => Raise (BaseExc "KeyboardInterrupt")
         | _ => Ret tt
         end;
     wait_result := fun _ => Ret tt;
     find_elements_result := fun _ => Ret [full_card] |}.

(** ** Records and pages *)

(** The dictionary literal of [scrape_data], as a function of what the eight
    lookups returned. *)
Definition listing_dict (link : pyval)
    (status price bed bath sqft lot_size address_text : string) : record :=
  [("Property Status", PyStr status);
   ("Price", PyStr price);
   ("Bed", PyStr (py_or bed "N/A"));
   ("Bath", PyStr (py_or bath "N/A"));
   ("Sqft", PyStr (py_or sqft "N/A"));
   ("Lot Size", PyStr (py_or lot_size "N/A"));
   ("Address", PyStr (join " " (split address_text)));
   ("Link", link)].

(** The record the inner [try] appends for a card: the dictionary when the
    eight lookups return, none when one of them raises. *)
Definition listing_record (prop : element) : option record :=
  match link_lookup prop, status_lookup prop, price_lookup prop,
        bed_lookup prop, bath_lookup prop, sqft_lookup prop,
        lot_size_lookup prop, address_lookup prop with
  | Ret link, Ret status, Ret price, Ret bed, Ret bath, Ret sqft,
    Ret lot_size, Ret address =>
      Some (listing_dict link status price bed bath sqft lot_size address)
  | _, _, _, _, _, _, _, _ => None
  end.

(** The cards the loop of [scrape_data] gets to: those before the first one
    the page cannot scroll to. *)
Fixpoint reached (props : list element) : list element :=
  match props with
  | [] => []
  | prop :: rest =>
      match scroll_result prop with
      | Ret _ => prop :: reached rest
      | Raise _ => []
      end
  end.

(** The records of the cards reached, in the order of the page. *)
Definition page_records (props : list element) : list record :=
  flat_map
    (fun prop =>
       match listing_record prop with
       | Some r => [r]
       | None => []
       end)
    (reached props).

(** The records of the page shown once [n] navigations have been made; none
    when the cards cannot be listed. *)
Definition records_at (w : world) (n : nat) : list record :=
  match find_elements_result w n with
  | Ret props => page_records props
  | Raise _ => []
  end.

(** The value under key [k] is a non-empty text. *)
Definition filled (k : string) (r : record) : Prop :=
  exists v, lookup k r = Some (PyStr v) /\ v <> "".

(** The values of a record in the order of its keys, as cells of a row. *)
Definition cells (r : record) : list (option pyval) :=
  map (fun kv => Some (snd kv)) r.

(** ** More on what a computation changes *)

(** From [s] to [s'] records were only appended, each satisfying [P]. *)
Definition appended (P : record -> Prop) (s s' : scraper) : Prop :=
  exists recs, data s' = (data s ++ recs)%list /\ Forall P recs.

(** From [s] to [s'] calls were only added to the trace, each satisfying
    [Q]. *)
Definition emitted (Q : event -> Prop) (s s' : scraper) : Prop :=
  exists evs, trace s' = (trace s ++ evs)%list /\ Forall Q evs.

Definition keeps_data (s s' : scraper) : Prop := data s' = data s.

Definition keeps_navigations (s s' : scraper) : Prop :=
  navigations s' = navigations s.

(** [ev] is not a navigation. *)
Definition not_get (ev : event) : Prop :=
  match ev with
  | EvGet _ => False
  | _ => True
  end.

(** [ev] is not a navigation, or it is one to a result page of [zip] with a
    page number from 1 to 5. *)
Definition fetches_only (zip : Z) (ev : event) : Prop :=
  match ev with
  | EvGet url =>
      exists p, 1 <= p <= 5 /\ url = base_url ++ str_int zip ++ "/pg-" ++ str_int p
  | _ => True
  end.

(** Every navigation among [evs] comes right after a sleep; [after_sleep]
    tells that the call before [evs] was one. *)
Fixpoint paced_after (after_sleep : bool) (evs : list event) : bool :=
  match evs with
  | [] => true
  | EvGet _ :: rest => after_sleep && paced_after false rest
  | EvSleep :: rest => paced_after true rest
  | _ :: rest => paced_after false rest
  end.

Definition paced (evs : list event) : bool := paced_after false evs.

(** From [s] to [s'] the calls added to the trace are paced. *)
Definition pacing (s s' : scraper) : Prop :=
  exists evs, trace s' = (trace s ++ evs)%list /\ paced evs = true.

(** From a scraper for [zip] with its counter at 1 or more, only pages of
    [zip] were navigated to, and the scraper is still one for [zip] with its
    counter no lower. *)
Definition fetching_for (zip : Z) (s s' : scraper) : Prop :=
  zipcode s = zip -> 1 <= page s ->
  emitted (fetches_only zip) s s' /\ zipcode s' = zip /\ page s <= page s'.

(** * Properties *)

(** ** The page URL *)

Module Url.

Lemma occurs_uint (u : uint) : occurs "/" (NilEmpty.string_of_uint u) = false.
Proof. induction u; simpl; auto. Qed.

(** A rendered integer has digits and at most a sign, never a slash. *)
Lemma occurs_str_int (n : Z) : occurs "/" (str_int n) = false.
Proof.
  unfold str_int. destruct (Z.to_int n); simpl; apply occurs_uint.
Qed.

Lemma str_int_inj (m n : Z) : str_int m = str_int n -> m = n.
Proof.
  unfold str_int. intros H. apply to_int_inj.
  assert (E : Some (Z.to_int m) = Some (Z.to_int n)).
  { rewrite <- (NilEmpty.isi (Z.to_int m)), <- (NilEmpty.isi (Z.to_int n)).
    now rewrite H. }
  now inversion E.
Qed.

Lemma append_cancel_l (p x y : string) : p ++ x = p ++ y -> x = y.
Proof.
  induction p as [|c p IH]; simpl; intros H; [exact H|].
  inversion H. auto.
Qed.

(** Two slash-free texts followed by a slash split the same way. *)
Lemma split_at_slash (a a' b b' : string) :
  occurs "/" a = false -> occurs "/" a' = false ->
  a ++ String "/" b = a' ++ String "/" b' -> a = a' /\ b = b'.
Proof.
  revert a'. induction a as [|c a IH]; intros [|c' a'] Ha Ha' H; simpl in *.
  - inversion H. auto.
  - inversion H; subst c'. discriminate Ha'.
  - inversion H; subst c. discriminate Ha.
  - inversion H; subst c'.
    apply orb_false_iff in Ha, Ha'.
    destruct (IH a') as [-> ->]; tauto.
Qed.

Lemma substring_all (b c : string) :
  substring 0 (String.length b) (b ++ c) = b.
Proof. induction b as [|x b IH]; simpl; [now destruct c | now rewrite IH]. Qed.

Lemma substring_skip (a t : string) (m : nat) :
  substring (String.length a) m (a ++ t) = substring 0 m t.
Proof. induction a as [|x a IH]; simpl; auto. Qed.

(** The text between a prefix and a suffix is found at the length of the
    prefix. *)
Lemma substring_middle (a b c : string) :
  substring (String.length a) (String.length b) (a ++ b ++ c) = b.
Proof. now rewrite substring_skip, substring_all. Qed.

Lemma app_empty_r (a : string) : a ++ "" = a.
Proof. induction a as [|x a IH]; simpl; [auto | now rewrite IH]. Qed.

Lemma substring_suffix (a b : string) :
  substring (String.length a) (String.length b) (a ++ b) = b.
Proof.
  rewrite <- (app_empty_r b) at 2. apply substring_middle.
Qed.

Lemma length_app (a b : string) :
  String.length (a ++ b) = (String.length a + String.length b)%nat.
Proof. induction a as [|x a IH]; simpl; auto. Qed.

Lemma app_assoc (a b c : string) : (a ++ b) ++ c = a ++ b ++ c.
Proof. induction a as [|x a IH]; simpl; [auto | now rewrite IH]. Qed.

End Url.

Example get_page_url_default :
  get_page_url (init 75034)
  = "https://www.realtor.com/realestateandhomes-search/75034/pg-1".
Proof. reflexivity. Qed.

(** C6.  The URL of [get_page_url] is a function of the ZIP code and the page
    number alone: the data collected and the calls made so far do not enter
    it.  It is the fixed base path, the ZIP code in decimal, the fixed text
    [/pg-] and the page number in decimal.  The ZIP code is read back at the
    offset where the base path ends and the page number right after [/pg-],
    where it ends the URL; each is embedded once, in its own slot.  Both are
    determined by the URL: two scrapers with the same URL have the same ZIP
    code and the same page. *)
Theorem get_page_url_embeds_zip_and_page (s : scraper) :
  let zip := str_int (zipcode s) in
  let pg := str_int (page s) in
  let url := get_page_url s in
  url = get_page_url (set_page (page s) (init (zipcode s)))
  /\ url = base_url ++ zip ++ "/pg-" ++ pg
  /\ substring (String.length base_url) (String.length zip) url = zip
  /\ substring (String.length base_url + String.length zip + 4)
       (String.length pg) url = pg
  /\ String.length url
     = (String.length base_url + String.length zip + 4 + String.length pg)%nat
  /\ forall s' : scraper,
       get_page_url s' = url -> zipcode s' = zipcode s /\ page s' = page s.
Proof.
  cbv zeta. unfold get_page_url.
  repeat split.
  - apply Url.substring_middle.
  - replace (String.length base_url + String.length (str_int (zipcode s)) + 4)%nat
      with (String.length ((base_url ++ str_int (zipcode s)) ++ "/pg-")).
    + rewrite <- (Url.app_assoc base_url (str_int (zipcode s))).
      rewrite <- (Url.app_assoc (base_url ++ str_int (zipcode s)) "/pg-").
      apply Url.substring_suffix.
    + now rewrite !Url.length_app.
  - rewrite !Url.length_app. simpl String.length. lia.
  - apply Url.append_cancel_l in H.
    apply Url.split_at_slash in H; try apply Url.occurs_str_int.
    now apply Url.str_int_inj.
  - apply Url.append_cancel_l in H.
    apply Url.split_at_slash in H; try apply Url.occurs_str_int.
    destruct H as [_ H]. injection H as H. now apply Url.str_int_inj.
Qed.

(** ** What the methods can change *)

Lemma count_gets_app (xs ys : list event) :
  count_gets (xs ++ ys)%list = (count_gets xs + count_gets ys)%nat.
Proof.
  induction xs as [|[] xs IH]; simpl; auto.
Qed.

Lemma browsed_refl (s : scraper) : browsed s s.
Proof.
  split; auto.
  - exists []. rewrite app_nil_r. auto.
  - exists []. rewrite app_nil_r. simpl. auto.
Qed.

Lemma browsed_trans (s1 s2 s3 : scraper) :
  browsed s1 s2 -> browsed s2 s3 -> browsed s1 s3.
Proof.
  intros [Z1 (r1 & D1 & F1) (e1 & T1 & B1 & N1)]
         [Z2 (r2 & D2 & F2) (e2 & T2 & B2 & N2)].
  split.
  - congruence.
  - exists (r1 ++ r2)%list. split.
    + rewrite D2, D1. now rewrite <- app_assoc.
    + apply Forall_app; auto.
  - exists (e1 ++ e2)%list. repeat split.
    + rewrite T2, T1. now rewrite <- app_assoc.
    + rewrite forallb_app, B1, B2. reflexivity.
    + rewrite count_gets_app. lia.
Qed.

Lemma stepped_refl (s : scraper) : stepped s s.
Proof. split; [apply browsed_refl | reflexivity]. Qed.

Lemma stepped_trans (s1 s2 s3 : scraper) :
  stepped s1 s2 -> stepped s2 s3 -> stepped s1 s3.
Proof.
  intros [B1 P1] [B2 P2]. split; [eapply browsed_trans; eauto | congruence].
Qed.

(** A browsing call that is not a navigation. *)
Lemma stepped_record_event (ev : event) (s : scraper) :
  browsing ev = true -> count_gets [ev] = 0%nat ->
  stepped s (record_event ev s).
Proof.
  intros Hb Hg. split; [split|]; simpl; auto.
  - exists []. rewrite app_nil_r. auto.
  - exists [ev]. simpl. rewrite Hb. simpl in Hg. rewrite Hg.
    repeat split. lia.
Qed.

Lemma count_finds_app (xs ys : list event) :
  count_finds (xs ++ ys)%list = (count_finds xs + count_finds ys)%nat.
Proof.
  induction xs as [|[] xs IH]; simpl; auto.
Qed.

Lemma unlisted_refl (s : scraper) : unlisted s s.
Proof. exists []. now rewrite app_nil_r. Qed.

Lemma unlisted_trans (s1 s2 s3 : scraper) :
  unlisted s1 s2 -> unlisted s2 s3 -> unlisted s1 s3.
Proof.
  intros (e1 & T1 & C1) (e2 & T2 & C2). exists (e1 ++ e2)%list. split.
  - rewrite T2, T1. now rewrite <- app_assoc.
  - rewrite count_finds_app. lia.
Qed.

Lemma unlisted_record_event (ev : event) (s : scraper) :
  count_finds [ev] = 0%nat -> unlisted s (record_event ev s).
Proof. intros H. exists [ev]. auto. Qed.

Section Preserves.

Variable R : scraper -> scraper -> Prop.
Hypothesis R_refl : forall s, R s s.
Hypothesis R_trans : forall s1 s2 s3, R s1 s2 -> R s2 s3 -> R s1 s3.

Lemma preserves_ret {A : Type} (a : A) : preserves R (ret a).
Proof. intros s. apply R_refl. Qed.

Lemma preserves_lift {A : Type} (r : result A) : preserves R (lift r).
Proof. intros s. apply R_refl. Qed.

Lemma preserves_bind {A B : Type} (c : M A) (k : A -> M B) :
  preserves R c -> (forall a, preserves R (k a)) -> preserves R (bind c k).
Proof.
  intros Hc Hk s. unfold bind. specialize (Hc s).
  destruct (c s) as [[a|e] s1]; simpl in *; auto.
  eapply R_trans; [exact Hc | apply Hk].
Qed.

Lemma preserves_try_except {A : Type} (body : M A) (handler : exn -> M A) :
  preserves R body -> (forall e, preserves R (handler e)) ->
  preserves R (try_except body handler).
Proof.
  intros Hb Hh s. unfold try_except. specialize (Hb s).
  destruct (body s) as [[a|e] s1]; simpl in *; auto.
  destruct (is_Exception e); simpl; auto.
  eapply R_trans; [exact Hb | apply Hh].
Qed.

Lemma preserves_for_each {A : Type} (body : A -> M unit) (xs : list A) :
  (forall x, preserves R (body x)) -> preserves R (for_each body xs).
Proof.
  intros Hb. induction xs as [|x xs IH]; simpl.
  - apply preserves_ret.
  - apply preserves_bind; auto.
Qed.

End Preserves.

Create HintDb frames.

Section MethodFrames.

Variable w : world.

Lemma stepped_sleep : preserves stepped sleep.
Proof. intros s. now apply stepped_record_event. Qed.

Lemma stepped_wait : preserves stepped (wait_until_container w).
Proof. intros s. now apply stepped_record_event. Qed.

Lemma stepped_find_elements : preserves stepped (find_elements w).
Proof. intros s. now apply stepped_record_event. Qed.

Lemma stepped_scroll (prop : element) : preserves stepped (scroll_into_view prop).
Proof. intros s. now apply stepped_record_event. Qed.

Lemma stepped_get (url : string) : preserves stepped (driver_get w url).
Proof.
  intros s. split; [split|]; simpl; auto.
  - exists []. rewrite app_nil_r. auto.
  - exists [EvGet url]. simpl. repeat split. lia.
Qed.

Lemma stepped_append_data (r : record) :
  has_fields r -> preserves stepped (append_data r).
Proof.
  intros Hr s. split; [split|]; simpl; auto.
  - exists [r]. auto.
  - exists []. rewrite app_nil_r. simpl. auto.
Qed.

Lemma unlisted_sleep : preserves unlisted sleep.
Proof. intros s. now apply unlisted_record_event. Qed.

Lemma unlisted_wait : preserves unlisted (wait_until_container w).
Proof. intros s. now apply unlisted_record_event. Qed.

Lemma unlisted_scroll (prop : element) :
  preserves unlisted (scroll_into_view prop).
Proof. intros s. now apply unlisted_record_event. Qed.

Lemma unlisted_get (url : string) : preserves unlisted (driver_get w url).
Proof. intros s. exists [EvGet url]. auto. Qed.

Lemma unlisted_append_data (r : record) : preserves unlisted (append_data r).
Proof. intros s. exists []. simpl. now rewrite app_nil_r. Qed.

#[local] Hint Resolve stepped_sleep stepped_wait stepped_find_elements
  stepped_scroll stepped_get unlisted_sleep unlisted_wait unlisted_scroll
  unlisted_get unlisted_append_data : frames.

(** Splits a computation along its binds and handlers, down to the calls
    above.  [refl] and [trans] are the two laws of the relation at hand. *)
Ltac framing refl trans :=
  repeat first
    [ solve [auto with frames]
    | apply stepped_append_data; reflexivity
    | apply (preserves_ret _ refl)
    | apply (preserves_lift _ refl)
    | apply (preserves_bind _ trans); [|intros ?]
    | apply (preserves_try_except _ trans); [|intros ?] ].

Ltac stepping := framing stepped_refl stepped_trans.
Ltac listing := framing unlisted_refl unlisted_trans.

Lemma stepped_load_page_loop (url : string) (retry_values : list Z) :
  preserves stepped (load_page_loop w url retry_values).
Proof.
  induction retry_values as [|r rest IH]; simpl.
  - stepping.
  - stepping. destruct a; [stepping | exact IH].
Qed.

Lemma stepped_load_page (retries : Z) : preserves stepped (load_page w retries).
Proof. intros s. apply stepped_load_page_loop. Qed.

Lemma stepped_scrape_listing (prop : element) :
  preserves stepped (scrape_listing prop).
Proof. unfold scrape_listing, extract_listing. stepping. Qed.

Lemma stepped_scrape_data : preserves stepped (scrape_data w).
Proof.
  unfold scrape_data. stepping.
  apply (preserves_for_each stepped stepped_refl stepped_trans).
  apply stepped_scrape_listing.
Qed.

Lemma unlisted_load_page_loop (url : string) (retry_values : list Z) :
  preserves unlisted (load_page_loop w url retry_values).
Proof.
  induction retry_values as [|r rest IH]; simpl.
  - listing.
  - listing. destruct a; [listing | exact IH].
Qed.

Lemma unlisted_load_page (retries : Z) :
  preserves unlisted (load_page w retries).
Proof. intros s. apply unlisted_load_page_loop. Qed.

Lemma unlisted_scrape_listing (prop : element) :
  preserves unlisted (scrape_listing prop).
Proof. unfold scrape_listing, extract_listing. listing. Qed.

(** [scrape_data] lists the cards of the page once. *)
Lemma scrape_data_lists_once (s : scraper) :
  exists evs,
    trace (snd (scrape_data w s)) = (trace s ++ evs)%list
    /\ count_finds evs = 1%nat.
Proof.
  unfold scrape_data, try_except, bind, find_elements, ret.
  destruct (find_elements_result w (navigations s)) as [props|e].
  - destruct (preserves_for_each unlisted unlisted_refl unlisted_trans
                scrape_listing props unlisted_scrape_listing
                (record_event EvFindElements s)) as (evs & T & C).
    exists (EvFindElements :: evs). simpl in T. split.
    + destruct (for_each scrape_listing props (record_event EvFindElements s))
        as [[[]|e] s1]; simpl in *;
        [|destruct (is_Exception e); simpl];
        rewrite T; now rewrite <- app_assoc.
    + simpl. now rewrite C.
  - exists [EvFindElements]. split; [|reflexivity].
    destruct (is_Exception e); reflexivity.
Qed.

End MethodFrames.

(** ** Computations that raise only instances of [Exception] *)

Lemma safe_ret {A : Type} (a : A) : safe (ret a).
Proof. intros s. reflexivity. Qed.

Lemma safe_bind {A B : Type} (c : M A) (k : A -> M B) :
  safe c -> (forall a, safe (k a)) -> safe (bind c k).
Proof.
  intros Hc Hk s. unfold bind. specialize (Hc s).
  destruct (c s) as [[a|e] s1]; simpl in *; auto. apply Hk.
Qed.

Lemma safe_for_each {A : Type} (body : A -> M unit) (xs : list A) :
  Forall (fun x => safe (body x)) xs -> safe (for_each body xs).
Proof.
  induction 1 as [|x xs Hx _ IH]; simpl.
  - apply safe_ret.
  - apply safe_bind; auto.
Qed.

Lemma for_each_cons_ret {A : Type} (body : A -> M unit) (x : A) (xs : list A)
    (s s' : scraper) :
  body x s = (Ret tt, s') ->
  for_each body (x :: xs) s = for_each body xs s'.
Proof. intros H. simpl. unfold bind. now rewrite H. Qed.

(** ** One listing *)

Section Listing.

Variable prop : element.
Variable s : scraper.

Ltac run_listing :=
  unfold scrape_listing, extract_listing, try_except, bind, lift, ret,
    scroll_into_view, sleep, append_data, shown.

Ltac lookup_case r :=
  destruct r as [?|[?|?]]; simpl in *; try discriminate; try reflexivity.

(** A lookup that raises an [Exception] ends the listing without a record:
    the handler of the inner [try] swallows it. *)
Lemma scrape_listing_failed_lookup :
  scroll_result prop = Ret tt ->
  lookups_catchable prop = true ->
  raises (link_lookup prop) || raises (status_lookup prop)
  || raises (price_lookup prop) || raises (bed_lookup prop)
  || raises (bath_lookup prop) || raises (sqft_lookup prop)
  || raises (lot_size_lookup prop) || raises (address_lookup prop) = true ->
  scrape_listing prop s = (Ret tt, shown s).
Proof.
  unfold lookups_catchable. run_listing.
  destruct prop as [scroll link status price bed bath sqft lot_size address].
  simpl. intros -> Hc Hr.
  lookup_case link. lookup_case status. lookup_case price. lookup_case bed.
  lookup_case bath. lookup_case sqft. lookup_case lot_size.
  lookup_case address.
Qed.

(** When the eight lookups return, one record is appended. *)
Lemma scrape_listing_complete
    (link : pyval) (status price bed bath sqft lot_size address : string) :
  scroll_result prop = Ret tt ->
  link_lookup prop = Ret link ->
  status_lookup prop = Ret status ->
  price_lookup prop = Ret price ->
  bed_lookup prop = Ret bed ->
  bath_lookup prop = Ret bath ->
  sqft_lookup prop = Ret sqft ->
  lot_size_lookup prop = Ret lot_size ->
  address_lookup prop = Ret address ->
  scrape_listing prop s
  = (Ret tt,
     set_data
       (data s ++
        [[("Property Status", PyStr status);
          ("Price", PyStr price);
          ("Bed", PyStr (py_or bed "N/A"));
          ("Bath", PyStr (py_or bath "N/A"));
          ("Sqft", PyStr (py_or sqft "N/A"));
          ("Lot Size", PyStr (py_or lot_size "N/A"));
          ("Address", PyStr (join " " (split address)));
          ("Link", link)]])
       (shown s)).
Proof.
  run_listing. intros -> -> -> -> -> -> -> -> ->. reflexivity.
Qed.

Lemma safe_scrape_listing :
  element_catchable prop = true -> safe (scrape_listing prop).
Proof.
  unfold element_catchable, lookups_catchable. intros H s0. revert H.
  run_listing.
  destruct prop as [scroll link status price bed bath sqft lot_size address].
  simpl. lookup_case scroll.
  lookup_case link. lookup_case status. lookup_case price. lookup_case bed.
  lookup_case bath. lookup_case sqft. lookup_case lot_size.
  lookup_case address.
Qed.

End Listing.

Lemma for_each_app {A : Type} (body : A -> M unit) (xs ys : list A)
    (s s1 : scraper) :
  for_each body xs s = (Ret tt, s1) ->
  for_each body (xs ++ ys) s = for_each body ys s1.
Proof.
  revert s. induction xs as [|x xs IH]; simpl; intros s H.
  - unfold ret in H. now inversion H.
  - unfold bind in *. destruct (body x s) as [[[]|e] s2].
    + now apply IH.
    + discriminate H.
Qed.

Lemma py_or_eqb (x d : string) : py_or x d = if String.eqb x "" then d else x.
Proof. destruct x; reflexivity. Qed.

(** ** Claims about one listing *)

(** C1, as the code has it.  A card whose bed, bath, sqft or lot-size lookup
    fails gets no record: the exception reaches the handler of the listing,
    the accumulator is left as it was and the loop goes on with the cards
    after it.  The placeholder is written only when the eight lookups
    return: then one record is appended, with ['N/A'] in exactly those of
    Bed, Bath, Sqft and Lot Size whose text is empty and the extracted values
    in the other fields. *)
Theorem missing_detail_field_skips_listing
    (prop : element) (before after : list element) (s s1 : scraper) :
  scroll_result prop = Ret tt ->
  for_each scrape_listing before s = (Ret tt, s1) ->
  (lookups_catchable prop = true ->
   raises (bed_lookup prop) || raises (bath_lookup prop)
   || raises (sqft_lookup prop) || raises (lot_size_lookup prop) = true ->
   scrape_listing prop s1 = (Ret tt, shown s1)
   /\ data (shown s1) = data s1
   /\ for_each scrape_listing (before ++ prop :: after) s
      = for_each scrape_listing after (shown s1))
  /\ (forall link status price bed bath sqft lot_size address,
        link_lookup prop = Ret link ->
        status_lookup prop = Ret status ->
        price_lookup prop = Ret price ->
        bed_lookup prop = Ret bed ->
        bath_lookup prop = Ret bath ->
        sqft_lookup prop = Ret sqft ->
        lot_size_lookup prop = Ret lot_size ->
        address_lookup prop = Ret address ->
        exists s2,
          scrape_listing prop s1 = (Ret tt, s2)
          /\ data s2
             = (data s1 ++
                [[("Property Status", PyStr status);
                  ("Price", PyStr price);
                  ("Bed", PyStr (if String.eqb bed "" then "N/A" else bed));
                  ("Bath", PyStr (if String.eqb bath "" then "N/A" else bath));
                  ("Sqft", PyStr (if String.eqb sqft "" then "N/A" else sqft));
                  ("Lot Size",
                    PyStr (if String.eqb lot_size "" then "N/A" else lot_size));
                  ("Address", PyStr (join " " (split address)));
                  ("Link", link)]])%list).
Proof.
  intros Hscroll Hbefore. split.
  - intros Hc Hr.
    assert (E : scrape_listing prop s1 = (Ret tt, shown s1)).
    { apply scrape_listing_failed_lookup; auto.
      destruct (link_lookup prop), (status_lookup prop), (price_lookup prop),
        (bed_lookup prop), (bath_lookup prop), (sqft_lookup prop),
        (lot_size_lookup prop), (address_lookup prop);
        simpl in *; auto. }
    repeat split; auto.
    rewrite (for_each_app _ _ _ _ _ Hbefore).
    now apply for_each_cons_ret.
  - intros link status price bed bath sqft lot_size address
      Hl Hs Hp Hbed Hbath Hsqft Hlot Ha.
    eexists. split.
    + eapply scrape_listing_complete; eauto.
    + simpl. now rewrite !py_or_eqb.
Qed.

Lemma missing_detail_field_skips_listing_witness :
  (scrape_listing card_without_beds (shown (init 75034))
   = (Ret tt, shown (shown (init 75034)))
   /\ data (shown (shown (init 75034))) = data (shown (init 75034))
   /\ for_each scrape_listing
        ([card_without_price] ++ card_without_beds :: [full_card]) (init 75034)
      = for_each scrape_listing [full_card] (shown (shown (init 75034))))
  /\ exists s2,
       scrape_listing card_with_blanks (init 75034) = (Ret tt, s2)
       /\ data s2
          = [[("Property Status", PyStr "");
              ("Price", PyStr "$95,000");
              ("Bed", PyStr "N/A");
              ("Bath", PyStr "1");
              ("Sqft", PyStr "900");
              ("Lot Size", PyStr "N/A");
              ("Address", PyStr "");
              ("Link",
                PyStr "https://www.realtor.com/realestateandhomes-detail/M1")]].
Proof.
  split.
  - apply (proj1 (missing_detail_field_skips_listing card_without_beds
                    [card_without_price] [full_card] (init 75034)
                    (shown (init 75034)) eq_refl eq_refl));
      reflexivity.
  - exact (proj2 (missing_detail_field_skips_listing card_with_blanks
                    [] [] (init 75034) (init 75034) eq_refl eq_refl)
             _ _ _ _ _ _ _ _
             eq_refl eq_refl eq_refl eq_refl eq_refl eq_refl eq_refl eq_refl).
Defined.

(** C1 as stated fails: on a page whose only card lacks the beds item and
    nothing else, the claim promises one record with ['N/A'] under Bed;
    [scrape_data] returns with the accumulator still empty. *)
Lemma missing_beds_leaves_no_record :
  raises (bed_lookup card_without_beds) = true
  /\ raises (link_lookup card_without_beds)
     || raises (status_lookup card_without_beds)
     || raises (price_lookup card_without_beds)
     || raises (bath_lookup card_without_beds)
     || raises (sqft_lookup card_without_beds)
     || raises (lot_size_lookup card_without_beds)
     || raises (address_lookup card_without_beds) = false
  /\ fst (scrape_data (steady_world [card_without_beds]) (init 75034)) = Ret tt
  /\ data (snd (scrape_data (steady_world [card_without_beds]) (init 75034)))
     = [].
Proof. repeat split. Qed.

(** C2.  A card whose link, status, price or address lookup fails gets no
    record: [scrape_listing] returns with the accumulator as it was, and the
    loop over the page goes on with the cards after it. *)
Theorem missing_key_field_excludes_listing
    (prop : element) (before after : list element) (s s1 : scraper) :
  scroll_result prop = Ret tt ->
  lookups_catchable prop = true ->
  raises (link_lookup prop) || raises (status_lookup prop)
  || raises (price_lookup prop) || raises (address_lookup prop) = true ->
  for_each scrape_listing before s = (Ret tt, s1) ->
  scrape_listing prop s1 = (Ret tt, shown s1)
  /\ data (shown s1) = data s1
  /\ for_each scrape_listing (before ++ prop :: after) s
     = for_each scrape_listing after (shown s1).
Proof.
  intros Hscroll Hc Hr Hbefore.
  assert (E : scrape_listing prop s1 = (Ret tt, shown s1)).
  { apply scrape_listing_failed_lookup; auto.
    destruct (link_lookup prop), (status_lookup prop), (price_lookup prop),
      (bed_lookup prop), (bath_lookup prop), (sqft_lookup prop),
      (lot_size_lookup prop), (address_lookup prop);
      simpl in *; auto. }
  repeat split; auto.
  rewrite (for_each_app _ _ _ _ _ Hbefore).
  now apply for_each_cons_ret.
Qed.

Lemma missing_key_field_excludes_listing_witness :
  scrape_listing card_without_price (init 75034) = (Ret tt, shown (init 75034))
  /\ data (shown (init 75034)) = data (init 75034)
  /\ for_each scrape_listing ([] ++ card_without_price :: [full_card])
       (init 75034)
     = for_each scrape_listing [full_card] (shown (init 75034)).
Proof.
  apply (missing_key_field_excludes_listing card_without_price [] [full_card]
           (init 75034) (init 75034));
    reflexivity.
Defined.

(** C10.  When the eight elements of a card are found, the record appended
    has ['N/A'] under Bed, Bath, Sqft or Lot Size exactly where the text read
    is empty, and the text read otherwise.  Status, price and link go in as
    read, empty or not; the address goes in with its whitespace normalised,
    which leaves an empty address empty. *)
Theorem empty_text_gets_placeholder
    (prop : element) (s : scraper)
    (link : pyval) (status price bed bath sqft lot_size address : string) :
  scroll_result prop = Ret tt ->
  link_lookup prop = Ret link ->
  status_lookup prop = Ret status ->
  price_lookup prop = Ret price ->
  bed_lookup prop = Ret bed ->
  bath_lookup prop = Ret bath ->
  sqft_lookup prop = Ret sqft ->
  lot_size_lookup prop = Ret lot_size ->
  address_lookup prop = Ret address ->
  exists (s' : scraper) (r : record),
    scrape_listing prop s = (Ret tt, s')
    /\ data s' = (data s ++ [r])%list
    /\ r = [("Property Status", PyStr status);
            ("Price", PyStr price);
            ("Bed", PyStr (if String.eqb bed "" then "N/A" else bed));
            ("Bath", PyStr (if String.eqb bath "" then "N/A" else bath));
            ("Sqft", PyStr (if String.eqb sqft "" then "N/A" else sqft));
            ("Lot Size",
              PyStr (if String.eqb lot_size "" then "N/A" else lot_size));
            ("Address", PyStr (join " " (split address)));
            ("Link", link)]
    /\ (address = "" -> lookup "Address" r = Some (PyStr "")).
Proof.
  intros Hscroll Hl Hs Hp Hbed Hbath Hsqft Hlot Ha.
  eexists. eexists. split; [|split; [|split]].
  - eapply scrape_listing_complete; eauto.
  - reflexivity.
  - now rewrite !py_or_eqb.
  - intros ->. reflexivity.
Qed.

Lemma empty_text_gets_placeholder_witness :
  exists (s' : scraper) (r : record),
    scrape_listing card_with_blanks (init 75034) = (Ret tt, s')
    /\ data s' = [r]
    /\ r = [("Property Status", PyStr "");
            ("Price", PyStr "$95,000");
            ("Bed", PyStr "N/A");
            ("Bath", PyStr "1");
            ("Sqft", PyStr "900");
            ("Lot Size", PyStr "N/A");
            ("Address", PyStr "");
            ("Link",
              PyStr "https://www.realtor.com/realestateandhomes-detail/M1")]
    /\ ("" = "" -> lookup "Address" r = Some (PyStr "")).
Proof.
  exact (empty_text_gets_placeholder card_with_blanks (init 75034)
           _ _ _ _ _ _ _ _
           eq_refl eq_refl eq_refl eq_refl eq_refl eq_refl eq_refl eq_refl
           eq_refl).
Defined.

(** ** [scrape_data] *)

Lemma safe_for_each_scrape_listing (props : list element) :
  forallb element_catchable props = true ->
  safe (for_each scrape_listing props).
Proof.
  intros H. apply safe_for_each. apply Forall_forall. intros prop Hin.
  apply safe_scrape_listing.
  rewrite forallb_forall in H. now apply H.
Qed.

(** [scrape_data] returns in a world that raises only instances of
    [Exception]. *)
Lemma scrape_data_returns (w : world) (s : scraper) :
  pages_catchable w -> exists s', scrape_data w s = (Ret tt, s').
Proof.
  intros Hw. specialize (Hw (navigations s)).
  unfold scrape_data, try_except, bind, find_elements.
  destruct (find_elements_result w (navigations s)) as [props|e].
  - pose proof (safe_for_each_scrape_listing props Hw
                  (record_event EvFindElements s)) as Hsafe.
    destruct (for_each scrape_listing props (record_event EvFindElements s))
      as [[[]|e] s1]; simpl in Hsafe.
    + now exists s1.
    + rewrite Hsafe. unfold ret. now exists s1.
  - rewrite Hw. unfold ret. eauto.
Qed.

(** C7.  Whatever the page holds, [scrape_data] returns: a failure to list
    the cards, to scroll to one or to read one ends in one of its two
    handlers.  On a page with no card it returns with the accumulator as it
    was. *)
Theorem scrape_data_never_raises (w : world) (s : scraper) :
  pages_catchable w ->
  exists s',
    scrape_data w s = (Ret tt, s')
    /\ (find_elements_result w (navigations s) = Ret [] -> data s' = data s).
Proof.
  intros Hw. destruct (scrape_data_returns w s Hw) as (s' & E).
  exists s'. split; [exact E|]. intros Hempty.
  unfold scrape_data, try_except, bind, find_elements in E.
  rewrite Hempty in E. simpl in E. unfold ret in E.
  inversion E. reflexivity.
Qed.

Lemma scrape_data_never_raises_witness :
  pages_catchable (steady_world [full_card; unreachable_card; full_card])
  /\ exists s',
       scrape_data (steady_world [full_card; unreachable_card; full_card])
         (init 75034) = (Ret tt, s')
       /\ (find_elements_result
             (steady_world [full_card; unreachable_card; full_card])
             (navigations (init 75034)) = Ret [] ->
           data s' = data (init 75034)).
Proof.
  assert (H : pages_catchable
                (steady_world [full_card; unreachable_card; full_card])).
  { intros n. reflexivity. }
  split; [exact H|].
  exact (scrape_data_never_raises _ (init 75034) H).
Defined.

(** ** [load_page] *)

Lemma range_length (lo hi : Z) : List.length (range lo hi) = Z.to_nat (hi - lo).
Proof. unfold range. now rewrite length_map, length_seq. Qed.

Section LoadPage.

Variable w : world.
Variable url : string.
Hypothesis Hw : loads_catchable w.

(** One pass through the [try] of [load_page]: it never raises, it makes
    one navigation, and it returns [True] exactly when the attempt
    succeeds. *)
Lemma load_attempt_caught (s : scraper) :
  exists s',
    try_except (load_attempt w url) (fun _ => ret None) s
    = (Ret (if attempt_succeeds w url (navigations s)
            then Some true else None), s')
    /\ navigations s' = S (navigations s).
Proof.
  destruct Hw as [Hget Hwait].
  unfold try_except, load_attempt, bind, sleep, driver_get,
    wait_until_container, ret, attempt_succeeds.
  simpl.
  specialize (Hget (navigations s) url).
  specialize (Hwait (S (navigations s))).
  destruct (get_result w (navigations s) url) as [[]|e]; simpl in *.
  - destruct (wait_result w (S (navigations s))) as [[]|e]; simpl in *.
    + eexists. split; reflexivity.
    + rewrite Hwait. eexists. split; reflexivity.
  - rewrite Hget. eexists. split; reflexivity.
Qed.

(** The loop stops at the first attempt that succeeds and otherwise uses
    every retry value. *)
Lemma load_page_loop_first_success (retry_values : list Z) (s : scraper) :
  exists b s',
    load_page_loop w url retry_values s = (Ret b, s')
    /\ (b = true ->
        exists k,
          (k < List.length retry_values)%nat
          /\ attempt_succeeds w url (navigations s + k) = true
          /\ (forall j, (j < k)%nat ->
                attempt_succeeds w url (navigations s + j) = false)
          /\ navigations s' = (navigations s + k + 1)%nat)
    /\ (b = false ->
        (forall k, (k < List.length retry_values)%nat ->
           attempt_succeeds w url (navigations s + k) = false)
        /\ navigations s' = (navigations s + List.length retry_values)%nat).
Proof.
  revert s. induction retry_values as [|r rest IH]; intros s.
  - exists false, s. simpl. repeat split; try discriminate.
    + intros k Hk. lia.
    + lia.
  - destruct (load_attempt_caught s) as (s1 & E1 & N1).
    simpl load_page_loop. unfold bind at 1. rewrite E1.
    destruct (attempt_succeeds w url (navigations s)) eqn:Ok.
    + exists true, s1. unfold ret. repeat split; try discriminate.
      intros _. exists 0%nat. rewrite Nat.add_0_r. simpl.
      repeat split; auto; try lia.
    + destruct (IH s1) as (b & s' & E & Ht & Hf).
      exists b, s'. rewrite N1 in Ht, Hf. split; [exact E|]. split.
      * intros Hb. destruct (Ht Hb) as (k & Hk & Hok & Hfirst & Hn).
        exists (S k). simpl. repeat split.
        -- lia.
        -- now rewrite Nat.add_succ_r.
        -- intros [|j] Hj.
           ++ now rewrite Nat.add_0_r.
           ++ rewrite Nat.add_succ_r. apply Hfirst. lia.
        -- lia.
      * intros Hb. destruct (Hf Hb) as (Hall & Hn). simpl. split.
        -- intros [|k] Hk.
           ++ now rewrite Nat.add_0_r.
           ++ rewrite Nat.add_succ_r. apply Hall. lia.
        -- lia.
Qed.

End LoadPage.



(** The first attempt times out, the second succeeds: [load_page] returns
    [True] after two navigations. *)
Example load_page_second_attempt :
  load_page slow_start_world default_retries (init 75034)
  = (Ret true,
     {| zipcode := 75034; page := 1; data := []; navigations := 2;
        trace := [EvSleep; EvGet (get_page_url (init 75034)); EvWait;
                  EvSleep; EvGet (get_page_url (init 75034)); EvWait] |}).
Proof. reflexivity. Qed.

(** ** The run loop *)

Lemma browsed_set_page (p : Z) (s : scraper) : browsed s (set_page p s).
Proof.
  split; simpl; auto.
  - exists []. rewrite app_nil_r. auto.
  - exists []. rewrite app_nil_r. simpl. auto.
Qed.

Section RunLoop.

Variable w : world.

(** The loop returns with fuel for the pages left, whatever the world does:
    it ends with [Some] outcome, an exception included, and has only
    browsed. *)
Lemma run_loop_total (fuel : nat) (s : scraper) :
  (Z.to_nat (6 - page s) <= fuel)%nat ->
  exists r s', run_loop w fuel s = Some (r, s') /\ browsed s s'.
Proof.
  revert s. induction fuel as [|fuel IH]; intros s Hfuel; simpl;
    destruct (page s <=? 5) eqn:Hpage;
    try (exists (Ret tt), s; split; [reflexivity | apply browsed_refl]).
  - apply Z.leb_le in Hpage. lia.
  - apply Z.leb_le in Hpage.
    destruct (stepped_load_page w default_retries s) as [B1 P1].
    destruct (load_page w default_retries s) as [[[|]|e] s1];
      simpl in B1, P1;
      try (eexists; eexists; split; [reflexivity | exact B1]).
    destruct (stepped_scrape_data w s1) as [B2 P2].
    destruct (scrape_data w s1) as [[[]|e] s2]; simpl in B2, P2.
    + destruct (IH (set_page (page s2 + 1) s2)) as (r & s' & E & B3).
      { cbn [page set_page]. lia. }
      exists r, s'. split; [exact E|].
      eapply browsed_trans; [exact B1|].
      eapply browsed_trans; [exact B2|].
      eapply browsed_trans; [apply browsed_set_page | exact B3].
    + eexists; eexists; split; [reflexivity|].
      eapply browsed_trans; eauto.
Qed.

Hypothesis Hloads : loads_catchable w.
Hypothesis Hpages : pages_catchable w.

(** When the world raises only instances of [Exception], the loop returns
    normally.  It has listed the cards of one page for each step of the
    page counter, and it stopped either past page 5 or at a page that
    [load_page] failed to load. *)
Lemma run_loop_exits (fuel : nat) (s : scraper) :
  (Z.to_nat (6 - page s) <= fuel)%nat ->
  exists s' evs,
    run_loop w fuel s = Some (Ret tt, s')
    /\ trace s' = (trace s ++ evs)%list
    /\ Z.of_nat (count_finds evs) = page s' - page s
    /\ ((5 < page s' /\ page s' = Z.max (page s) 6)
        \/ (page s' <= 5
            /\ exists s0,
                 page s0 = page s'
                 /\ load_page w default_retries s0 = (Ret false, s'))).
Proof.
  revert s. induction fuel as [|fuel IH]; intros s Hfuel; simpl;
    destruct (page s <=? 5) eqn:Hpage.
  - apply Z.leb_le in Hpage. lia.
  - apply Z.leb_gt in Hpage. exists s, []. rewrite app_nil_r. simpl.
    repeat split; try lia.
  - apply Z.leb_le in Hpage.
    destruct (load_page_loop_first_success w (get_page_url s) Hloads
                (range 1 (default_retries + 1)) s) as (b & s1 & E1 & _).
    fold (load_page w default_retries s) in E1.
    destruct (stepped_load_page w default_retries s) as [_ P1].
    destruct (unlisted_load_page w default_retries s) as (e1 & T1 & C1).
    rewrite E1 in *. simpl in P1, T1. destruct b.
    + destruct (scrape_data_returns w s1 Hpages) as (s2 & E2).
      destruct (stepped_scrape_data w s1) as [_ P2].
      destruct (scrape_data_lists_once w s1) as (e2 & T2 & C2).
      rewrite E2 in *. simpl in P2, T2.
      destruct (IH (set_page (page s2 + 1) s2))
        as (s' & e3 & E3 & T3 & C3 & Hexit).
      { cbn [page set_page]. lia. }
      cbn [page set_page trace] in T3, C3, Hexit.
      exists s', (e1 ++ e2 ++ e3)%list. split; [exact E3|]. split.
      { rewrite T3, T2, T1. now rewrite <- !app_assoc. }
      split.
      { rewrite !count_finds_app. lia. }
      destruct Hexit as [[Hgt Hmax]|Hbreak]; [left | right; exact Hbreak].
      split; lia.
    + exists s1, e1. repeat split; auto.
      * rewrite C1. lia.
      * right. split; [lia|]. exists s. auto.
  - apply Z.leb_gt in Hpage. exists s, []. rewrite app_nil_r. simpl.
    repeat split; try lia.
Qed.

End RunLoop.



(** ** [run]: release of the browser and the output file *)

Lemma writes_app (xs ys : list event) :
  writes (xs ++ ys) = (writes xs ++ writes ys)%list.
Proof.
  induction xs as [|[] xs IH]; simpl; auto. now rewrite IH.
Qed.

Lemma writes_browsing (evs : list event) :
  forallb browsing evs = true -> writes evs = [].
Proof.
  induction evs as [|[] evs IH]; simpl; auto; discriminate.
Qed.

Lemma columns_stable (recs : list record) :
  Forall has_fields recs ->
  fold_left (fun cols r => add_columns cols (map fst r)) recs field_names
  = field_names.
Proof.
  induction 1 as [|r recs Hr _ IH]; simpl; auto.
  rewrite Hr. exact IH.
Qed.

(** The columns of a frame built from records with the eight keys are the
    eight keys. *)
Lemma columns_field_names (r : record) (recs : list record) :
  Forall has_fields (r :: recs) -> columns (r :: recs) = field_names.
Proof.
  intros H. inversion H as [|? ? Hr Hrecs]; subst.
  unfold columns. simpl. rewrite Hr. now apply columns_stable.
Qed.

Section Run.

Variable w : world.
Variable zip : Z.

(** [run] on a fresh scraper: the loop ends, with a value or an exception,
    having only browsed; [quit] follows in both cases; the output step
    follows when the loop returned. *)
Lemma run_from_init :
  exists r s1,
    run_loop w 5 (init zip) = Some (r, s1)
    /\ browsed (init zip) s1
    /\ run w (init zip)
       = Some (match r with
               | Ret _ => save_output (record_event EvQuit s1)
               | Raise e => (Raise e, record_event EvQuit s1)
               end).
Proof.
  destruct (run_loop_total w 5 (init zip)) as (r & s1 & E & B).
  { cbn [page init]. lia. }
  exists r, s1. split; [exact E|]. split; [exact B|].
  unfold run. change (Z.to_nat (6 - page (init zip))) with 5%nat.
  rewrite E. unfold driver_quit. now destruct r as [[]|e].
Qed.

End Run.

(** [run] on any scraper: the same, with the loop given fuel for the pages
    left. *)
Lemma run_from_any (w : world) (s : scraper) :
  exists r s1,
    run_loop w (Z.to_nat (6 - page s)) s = Some (r, s1)
    /\ browsed s s1
    /\ run w s
       = Some (match r with
               | Ret _ => save_output (record_event EvQuit s1)
               | Raise e => (Raise e, record_event EvQuit s1)
               end).
Proof.
  destruct (run_loop_total w (Z.to_nat (6 - page s)) s (Nat.le_refl _))
    as (r & s1 & E & B).
  exists r, s1. split; [exact E|]. split; [exact B|].
  unfold run. rewrite E. unfold driver_quit. now destruct r as [[]|e].
Qed.

(** An interrupt during the second page: [run] raises it, and the last call
    made is [driver.quit()]. *)
Example run_interrupted :
  exists s',
    run interrupted_world (init 75034)
    = Some (Raise (BaseExc "KeyboardInterrupt"), s')
    /\ page s' = 2
    /\ List.length (data s') = 1%nat
    /\ List.last (trace s') EvSleep = EvQuit
    /\ writes (trace s') = [].
Proof. eexists. repeat split. Qed.

(** The first load of page 1 times out and the retry succeeds: the page is
    scraped like the four after it, and the five records are written. *)
Example run_after_slow_start :
  match run slow_start_world (init 75034) with
  | Some (Ret _, s') =>
      page s' = 6
      /\ navigations s' = 6%nat
      /\ count_finds (trace s') = 5%nat
      /\ List.length (data s') = 5%nat
      /\ writes (trace s') = [("output.csv", DataFrame (data s'))]
  | _ => False
  end.
Proof. vm_compute. repeat split. Qed.

(** C5.  [run] ends from any scraper whose accumulator holds records with
    the eight fields, the empty one included.  The calls it adds to the
    trace hold no write when it returns with an empty accumulator, and
    exactly one when it returns with records: the file is [output.csv], it
    has one row for each record of the accumulator, and its header is the
    list of the eight field names, the keys of every record.  When [run]
    raises, nothing is written. *)
Theorem run_writes_output (w : world) (s : scraper) :
  Forall has_fields (data s) ->
  exists r s' evs,
    run w s = Some (r, s')
    /\ trace s' = (trace s ++ evs)%list
    /\ match r with
       | Ret _ =>
           match data s' with
           | [] => writes evs = []
           | _ :: _ =>
               exists t,
                 writes evs = [("output.csv", t)]
                 /\ List.length (rows t) = List.length (data s')
                 /\ header t = field_names
                 /\ Forall (fun rec => map fst rec = header t) (data s')
           end
       | Raise _ => writes evs = []
       end.
Proof.
  intros Hs.
  destruct (run_from_any w s)
    as (r & s1 & _ & [_ (recs & D & F) (evs & T & B & _)] & E).
  assert (F1 : Forall has_fields (data s1)).
  { rewrite D. apply Forall_app. auto. }
  assert (Hquit : writes (evs ++ [EvQuit]) = []).
  { rewrite writes_app, (writes_browsing evs B). reflexivity. }
  destruct r as [[]|e].
  - unfold save_output in E. cbn [record_event data] in E.
    destruct (data s1) as [|r0 rest] eqn:Edata.
    + exists (Ret tt), (record_event EvQuit s1), (evs ++ [EvQuit])%list.
      split; [exact E|]. cbn [record_event trace data]. split.
      * rewrite T. now rewrite <- app_assoc.
      * rewrite Edata. exact Hquit.
    + exists (Ret tt),
        (record_event (EvToCsv "output.csv" (DataFrame (r0 :: rest)))
           (record_event EvQuit s1)),
        (evs ++ [EvQuit; EvToCsv "output.csv" (DataFrame (r0 :: rest))])%list.
      split; [exact E|]. cbn [record_event trace data]. split.
      * rewrite T. now rewrite <- !app_assoc.
      * rewrite Edata. exists (DataFrame (r0 :: rest)).
        split; [|split; [|split]].
        -- change [EvQuit; EvToCsv "output.csv" (DataFrame (r0 :: rest))]
             with ([EvQuit]
                   ++ [EvToCsv "output.csv" (DataFrame (r0 :: rest))])%list.
           rewrite app_assoc, writes_app, Hquit. reflexivity.
        -- unfold DataFrame. cbn [rows]. now rewrite length_map.
        -- apply (columns_field_names r0 rest F1).
        -- unfold DataFrame. cbn [header].
           rewrite (columns_field_names r0 rest F1). exact F1.
  - exists (Raise e), (record_event EvQuit s1), (evs ++ [EvQuit])%list.
    split; [exact E|]. cbn [record_event trace]. split.
    + rewrite T. now rewrite <- app_assoc.
    + exact Hquit.
Qed.

(** A run that starts with one record and scrapes one card on each of five
    pages returns with six records and writes them: one file, six rows, the
    eight field names as header. *)
Lemma run_writes_output_witness :
  Forall has_fields (data scraper_with_record)
  /\ exists s' t,
       run (steady_world [full_card]) scraper_with_record
       = Some (Ret tt, s')
       /\ List.length (data s') = 6%nat
       /\ writes (trace s') = [("output.csv", t)]
       /\ List.length (rows t) = 6%nat
       /\ header t = field_names.
Proof.
  assert (H : Forall has_fields (data scraper_with_record)).
  { repeat constructor. }
  split; [exact H|].
  destruct (run_writes_output (steady_world [full_card]) scraper_with_record H)
    as (r & s' & evs & E & T & W).
  assert (R : match run (steady_world [full_card]) scraper_with_record with
              | Some (Ret _, s2) => List.length (data s2) = 6%nat
              | _ => False
              end).
  { vm_compute. reflexivity. }
  rewrite E in R. destruct r as [[]|e]; [|contradiction].
  destruct (data s') as [|r0 rest] eqn:Edata; [discriminate R|].
  destruct W as (t & Hw & Hrows & Hheader & _).
  exists s', t. simpl in T. rewrite T, Edata.
  split; [exact E|]. split; [exact R|]. split; [exact Hw|].
  split; [|exact Hheader]. rewrite Hrows. exact R.
Defined.

(** C8.  [run] on a fresh scraper ends the way its loop ends, by returning or
    by raising.  In both cases [driver.quit()] is the first call after the
    loop: the calls before it are browsing calls, so the handle is released
    once, and nothing is written before the release.  After it comes at most
    the write of [output.csv] when the loop returned, and nothing when the
    loop raised: the exception leaves [run] with the handle released. *)
Theorem run_quits_driver (w : world) (zip : Z) :
  exists r s1 s' after,
    run_loop w 5 (init zip) = Some (r, s1)
    /\ run w (init zip) = Some (r, s')
    /\ trace s' = (trace s1 ++ EvQuit :: after)%list
    /\ forallb browsing (trace s1) = true
    /\ match r with
       | Ret _ => after = [] \/ exists t, after = [EvToCsv "output.csv" t]
       | Raise _ => after = []
       end.
Proof.
  destruct (run_from_init w zip)
    as (r & s1 & Eloop & [_ _ (evs & T & B & _)] & E).
  cbn [init trace] in T. rewrite app_nil_l in T.
  exists r, s1. destruct r as [[]|e].
  - unfold save_output in E. cbn [record_event data] in E.
    destruct (data s1) as [|r0 recs].
    + exists (record_event EvQuit s1), []. repeat split; auto.
      now rewrite T.
    + eexists. exists [EvToCsv "output.csv" (DataFrame (r0 :: recs))].
      split; [exact Eloop|]. split; [exact E|].
      cbn [to_csv snd record_event trace]. split.
      * now rewrite <- app_assoc.
      * split; [now rewrite T | right; eauto].
  - exists (record_event EvQuit s1), []. repeat split; auto.
    now rewrite T.
Qed.

(** C9.  Every record in the accumulator at the end of [run], whatever the
    pages held and however [run] ended, has the eight keys of the dictionary
    literal in its order; [scrape_data] keeps an accumulator of such records
    so.  Every file written has these eight names as its header. *)
Theorem records_have_the_eight_fields (w : world) (zip : Z) :
  let fields :=
    ["Property Status"; "Price"; "Bed"; "Bath"; "Sqft"; "Lot Size"; "Address";
     "Link"] in
  exists r s',
    run w (init zip) = Some (r, s')
    /\ Forall (fun rec => map fst rec = fields) (data s')
    /\ (forall path t, In (path, t) (writes (trace s')) -> header t = fields)
    /\ (forall s,
          Forall (fun rec => map fst rec = fields) (data s) ->
          Forall (fun rec => map fst rec = fields) (data (snd (scrape_data w s)))).
Proof.
  cbv zeta. fold field_names. fold has_fields.
  destruct (run_from_init w zip)
    as (r & s1 & _ & [_ (recs & D & F) (evs & T & B & _)] & E).
  cbn [init data trace] in D, T. rewrite app_nil_l in D, T.
  assert (Hquit : writes (trace (record_event EvQuit s1)) = []).
  { simpl. rewrite T, writes_app, (writes_browsing evs B). reflexivity. }
  assert (Hscrape : forall s,
            Forall has_fields (data s) ->
            Forall has_fields (data (snd (scrape_data w s)))).
  { intros s Hs.
    destruct (stepped_scrape_data w s) as [[_ (recs' & D' & F') _] _].
    rewrite D'. apply Forall_app; auto. }
  destruct r as [[]|e].
  - unfold save_output in E. cbn [record_event data] in E. rewrite D in E.
    destruct recs as [|r0 recs].
    + eexists. eexists. split; [exact E|]. cbn [snd record_event data].
      rewrite D, Hquit. repeat split; auto. intros path t [].
    + eexists. eexists. split; [exact E|].
      cbn [to_csv snd record_event data trace].
      rewrite D, writes_app. simpl in Hquit. rewrite Hquit.
      repeat split; auto.
      intros path t [Heq|[]]. inversion Heq; subst.
      apply (columns_field_names r0 recs F).
  - eexists. eexists. split; [exact E|]. cbn [snd record_event data].
    rewrite D, Hquit. repeat split; auto. intros path t [].
Qed.

(** * Further properties *)

(** ** What [scrape_data] appends *)

Section PageRecords.

Ltac run_card :=
  unfold scrape_listing, extract_listing, try_except, bind, lift, ret,
    scroll_into_view, sleep, append_data, listing_record, listing_dict.

Ltac card_case r :=
  destruct r as [?|[?|?]]; simpl in *; try discriminate;
  try (eexists; split; [reflexivity | simpl; now rewrite ?app_nil_r]).

(** A card the page scrolls to adds its record, if it has one, and the loop
    body returns. *)
Lemma scrape_listing_record (prop : element) (s : scraper) :
  scroll_result prop = Ret tt ->
  lookups_catchable prop = true ->
  exists s',
    scrape_listing prop s = (Ret tt, s')
    /\ data s'
       = (data s ++ match listing_record prop with
                    | Some r => [r]
                    | None => []
                    end)%list.
Proof.
  unfold lookups_catchable. run_card.
  destruct prop as [scroll link status price bed bath sqft lot_size address].
  simpl. intros -> Hc.
  card_case link. card_case status. card_case price. card_case bed.
  card_case bath. card_case sqft. card_case lot_size. card_case address.
Qed.

(** The loop over the cards never raises anything but an [Exception], and
    leaves the records of the cards reached. *)
Lemma for_each_page_records (props : list element) (s : scraper) :
  forallb element_catchable props = true ->
  exists r s',
    for_each scrape_listing props s = (r, s')
    /\ catchable r = true
    /\ data s' = (data s ++ page_records props)%list.
Proof.
  revert s. induction props as [|prop props IH]; intros s Hc.
  - exists (Ret tt), s. unfold page_records. simpl.
    now rewrite app_nil_r.
  - simpl in Hc. apply andb_prop in Hc. destruct Hc as [Hprop Hrest].
    unfold element_catchable in Hprop. apply andb_prop in Hprop.
    destruct Hprop as [Hscroll Hlookups].
    unfold page_records. simpl for_each. simpl reached. unfold bind at 1.
    destruct (scroll_result prop) as [[]|e] eqn:Escroll.
    + destruct (scrape_listing_record prop s Escroll Hlookups)
        as (s1 & E1 & D1).
      rewrite E1. destruct (IH s1 Hrest) as (r & s' & E & Hr & D).
      exists r, s'. split; [exact E|]. split; [exact Hr|].
      rewrite D, D1. unfold page_records. simpl flat_map.
      now rewrite <- app_assoc.
    + unfold scrape_listing, bind, scroll_into_view. rewrite Escroll.
      eexists. eexists. split; [reflexivity|]. split; [exact Hscroll|].
      simpl. now rewrite app_nil_r.
Qed.

End PageRecords.

(** X1.  On a page whose cards are listed, [scrape_data] returns and appends,
    in the order of the page, one record for each card whose eight lookups
    return, among the cards before the first one that cannot be scrolled to:
    a card with a failed lookup is skipped alone, a failed scroll gives up
    the rest of the page and keeps what was appended. *)
Theorem scrape_data_appends_page_records
    (w : world) (s : scraper) (props : list element) :
  find_elements_result w (navigations s) = Ret props ->
  forallb element_catchable props = true ->
  exists s',
    scrape_data w s = (Ret tt, s')
    /\ data s' = (data s ++ page_records props)%list.
Proof.
  intros Hfind Hc.
  unfold scrape_data, try_except, bind, find_elements. rewrite Hfind.
  destruct (for_each_page_records props (record_event EvFindElements s) Hc)
    as (r & s' & E & Hr & D).
  rewrite E. destruct r as [[]|e].
  - exists s'. split; [reflexivity | exact D].
  - simpl in Hr. rewrite Hr. exists s'. split; [reflexivity | exact D].
Qed.

Lemma scrape_data_appends_page_records_witness :
  exists s',
    scrape_data
      (steady_world
         [full_card; card_without_beds; card_with_blanks; unreachable_card;
          full_card])
      (init 75034) = (Ret tt, s')
    /\ data s'
       = [listing_dict (PyStr "https://www.realtor.com/realestateandhomes-detail/M1")
            "House for sale" "$450,000" "3" "2" "1,850" "7,405"
            "12 Oak St  Frisco, TX 75034";
          listing_dict (PyStr "https://www.realtor.com/realestateandhomes-detail/M1")
            "" "$95,000" "" "1" "900" "" ""].
Proof.
  exact (scrape_data_appends_page_records
           (steady_world
              [full_card; card_without_beds; card_with_blanks;
               unreachable_card; full_card])
           (init 75034) _ eq_refl eq_refl).
Defined.

(** ** Frames, for any relation *)

Section Frames.

Variable R : scraper -> scraper -> Prop.
Hypothesis R_refl : forall s, R s s.
Hypothesis R_trans : forall s1 s2 s3, R s1 s2 -> R s2 s3 -> R s1 s3.
Variable w : world.

Ltac framing :=
  repeat first
    [ assumption
    | apply (preserves_ret R R_refl)
    | apply (preserves_lift R R_refl)
    | apply (preserves_bind R R_trans); [|intros ?]
    | apply (preserves_try_except R R_trans); [|intros ?] ].

(** [load_page] keeps what the sleep, the navigation to its URL and the wait
    keep. *)
Lemma frame_load_page_loop (url : string) (retry_values : list Z) :
  preserves R sleep ->
  preserves R (driver_get w url) ->
  preserves R (wait_until_container w) ->
  preserves R (load_page_loop w url retry_values).
Proof.
  intros Hsleep Hget Hwait.
  induction retry_values as [|r rest IH]; simpl.
  - framing.
  - unfold load_attempt. framing. destruct a; [framing | exact IH].
Qed.

(** [scrape_data] keeps what the sleep, the listing of the cards, a scroll
    and the append of a listing's dictionary keep. *)
Lemma frame_scrape_data :
  preserves R sleep ->
  preserves R (find_elements w) ->
  (forall prop, preserves R (scroll_into_view prop)) ->
  (forall link status price bed bath sqft lot_size address,
     preserves R
       (append_data
          (listing_dict link status price bed bath sqft lot_size address))) ->
  preserves R (scrape_data w).
Proof.
  intros Hsleep Hfind Hscroll Happend.
  unfold scrape_data. framing.
  apply (preserves_for_each R R_refl R_trans). intros prop.
  unfold scrape_listing, extract_listing. framing.
  - apply Hscroll.
  - apply Happend.
Qed.

(** The loop keeps what the step of the page counter, [load_page] and
    [scrape_data] keep; the first two are only used with the counter at most
    5, as the loop does. *)
Lemma frame_run_loop (fuel : nat) (s : scraper)
    (out : result unit * scraper) :
  (forall s0, page s0 <= 5 -> R s0 (set_page (page s0 + 1) s0)) ->
  (forall s0, page s0 <= 5 -> R s0 (snd (load_page w default_retries s0))) ->
  preserves R (scrape_data w) ->
  run_loop w fuel s = Some out -> R s (snd out).
Proof.
  intros Hpage Hload Hscrape. revert s.
  induction fuel as [|fuel IH]; intros s; simpl;
    destruct (page s <=? 5) eqn:Hguard; try discriminate;
    try (intros E; inversion E; apply R_refl).
  apply Z.leb_le in Hguard. specialize (Hload s Hguard).
  destruct (stepped_load_page w default_retries s) as [_ P1].
  destruct (load_page w default_retries s) as [[[|]|e] s1];
    simpl in Hload, P1;
    try (intros E; inversion E; exact Hload).
  specialize (Hscrape s1).
  destruct (stepped_scrape_data w s1) as [_ P2].
  destruct (scrape_data w s1) as [[[]|e] s2]; simpl in Hscrape, P2.
  - intros E. apply IH in E.
    eapply R_trans; [exact Hload|].
    eapply R_trans; [exact Hscrape|].
    eapply R_trans; [apply Hpage; lia | exact E].
  - intros E. inversion E. eapply R_trans; eauto.
Qed.

(** [run] keeps what its loop, [driver.quit()] and the write of the file
    keep. *)
Lemma frame_run (s : scraper) (out : result unit * scraper) :
  (forall s0, page s0 <= 5 -> R s0 (set_page (page s0 + 1) s0)) ->
  (forall s0, page s0 <= 5 -> R s0 (snd (load_page w default_retries s0))) ->
  preserves R (scrape_data w) ->
  (forall ev s0, browsing ev = false -> R s0 (record_event ev s0)) ->
  run w s = Some out -> R s (snd out).
Proof.
  intros Hpage Hload Hscrape Hend. unfold run.
  destruct (run_loop w (Z.to_nat (6 - page s)) s) as [[r s1]|] eqn:Eloop;
    [|discriminate].
  pose proof (frame_run_loop _ _ _ Hpage Hload Hscrape Eloop) as Hloop.
  simpl in Hloop. unfold driver_quit.
  assert (Hquit : R s (record_event EvQuit s1)).
  { eapply R_trans; [exact Hloop | now apply Hend]. }
  destruct r as [[]|e].
  - unfold save_output. cbn [data record_event].
    destruct (data s1); intros E; inversion E; [exact Hquit|].
    unfold to_csv. simpl. eapply R_trans; [exact Hquit | now apply Hend].
  - intros E. inversion E. exact Hquit.
Qed.

End Frames.

(** [run] ends from any scraper, whatever its page counter. *)
Lemma run_total (w : world) (s : scraper) :
  exists r s', run w s = Some (r, s').
Proof.
  unfold run.
  destruct (run_loop_total w (Z.to_nat (6 - page s)) s (Nat.le_refl _))
    as (r & s1 & E & _).
  rewrite E. unfold driver_quit.
  destruct r as [[]|e]; [|eauto].
  destruct (save_output (record_event EvQuit s1)) as [r' s'] eqn:Es. eauto.
Qed.

(** ** What each method leaves alone *)

Lemma keeps_data_trans (s1 s2 s3 : scraper) :
  keeps_data s1 s2 -> keeps_data s2 s3 -> keeps_data s1 s3.
Proof. unfold keeps_data. congruence. Qed.

Lemma keeps_navigations_trans (s1 s2 s3 : scraper) :
  keeps_navigations s1 s2 -> keeps_navigations s2 s3 ->
  keeps_navigations s1 s3.
Proof. unfold keeps_navigations. congruence. Qed.

Lemma load_page_keeps_data (w : world) (retries : Z) :
  preserves keeps_data (load_page w retries).
Proof.
  intros s. unfold load_page.
  apply (frame_load_page_loop keeps_data (fun _ => eq_refl) keeps_data_trans);
    intros s0; reflexivity.
Qed.

Lemma scrape_data_keeps_navigations (w : world) :
  preserves keeps_navigations (scrape_data w).
Proof.
  apply (frame_scrape_data keeps_navigations (fun _ => eq_refl)
           keeps_navigations_trans);
    intros; intros s0; reflexivity.
Qed.

(** X2.  Whether it returns or raises, [load_page] leaves the ZIP code, the
    page counter and the accumulator as they were, and [scrape_data] leaves
    the ZIP code, the page counter and the count of navigations as they
    were: loading never touches the records and scraping never navigates. *)
Theorem methods_keep_their_frame (w : world) (retries : Z) (s : scraper) :
  (zipcode (snd (load_page w retries s)) = zipcode s
   /\ page (snd (load_page w retries s)) = page s
   /\ data (snd (load_page w retries s)) = data s)
  /\ (zipcode (snd (scrape_data w s)) = zipcode s
      /\ page (snd (scrape_data w s)) = page s
      /\ navigations (snd (scrape_data w s)) = navigations s).
Proof.
  destruct (stepped_load_page w retries s) as [[Z1 _ _] P1].
  destruct (stepped_scrape_data w s) as [[Z2 _ _] P2].
  repeat split; auto.
  - apply load_page_keeps_data.
  - apply scrape_data_keeps_navigations.
Qed.

(** ** The accumulator only grows *)

Section Appended.

Variable P : record -> Prop.

Lemma appended_refl (s : scraper) : appended P s s.
Proof. exists []. now rewrite app_nil_r. Qed.

Lemma appended_trans (s1 s2 s3 : scraper) :
  appended P s1 s2 -> appended P s2 s3 -> appended P s1 s3.
Proof.
  intros (r1 & D1 & F1) (r2 & D2 & F2). exists (r1 ++ r2)%list. split.
  - rewrite D2, D1. now rewrite <- app_assoc.
  - apply Forall_app; auto.
Qed.

Lemma appended_same_data (s s' : scraper) :
  data s' = data s -> appended P s s'.
Proof. intros H. exists []. now rewrite app_nil_r. Qed.

(** Every dictionary [scrape_data] can build satisfies [P]. *)
Hypothesis P_listing :
  forall link status price bed bath sqft lot_size address,
    P (listing_dict link status price bed bath sqft lot_size address).

Lemma scrape_data_appended (w : world) : preserves (appended P) (scrape_data w).
Proof.
  apply (frame_scrape_data (appended P) appended_refl appended_trans);
    intros; intros s0; try (apply appended_same_data; reflexivity).
  exists [listing_dict link status price bed bath sqft lot_size address].
  split; [reflexivity|]. constructor; [apply P_listing | constructor].
Qed.

(** [run] only appends records that satisfy [P]. *)
Lemma run_appended (w : world) (s : scraper) (out : result unit * scraper) :
  run w s = Some out -> appended P s (snd out).
Proof.
  apply (frame_run (appended P) appended_refl appended_trans).
  - intros s0 _. now apply appended_same_data.
  - intros s0 _. apply appended_same_data. apply load_page_keeps_data.
  - apply scrape_data_appended.
  - intros ev s0 _. now apply appended_same_data.
Qed.

End Appended.

(** The page counter only moves up, and not past 6 unless it started there. *)
Lemma run_page_bounds (w : world) (s : scraper)
    (out : result unit * scraper) :
  run w s = Some out ->
  zipcode (snd out) = zipcode s
  /\ page s <= page (snd out) <= Z.max (page s) 6.
Proof.
  set (R := fun s0 s' : scraper =>
              zipcode s' = zipcode s0
              /\ page s0 <= page s' <= Z.max (page s0) 6).
  assert (R_refl : forall s0, R s0 s0) by (intros s0; unfold R; lia).
  assert (R_trans : forall s1 s2 s3, R s1 s2 -> R s2 s3 -> R s1 s3).
  { unfold R. intros s1 s2 s3 [Z1 B1] [Z2 B2]. split; [congruence | lia]. }
  assert (R_stepped : forall s0 s', stepped s0 s' -> R s0 s').
  { intros s0 s' [[Hz _ _] Hp]. unfold R. split; [exact Hz | lia]. }
  apply (frame_run R R_refl R_trans).
  - intros s0 Hle. unfold R. simpl. lia.
  - intros s0 _. apply R_stepped, stepped_load_page.
  - intros s0. apply R_stepped, stepped_scrape_data.
  - intros ev s0 _. unfold R. simpl. lia.
Qed.

(** X3.  [run] ends from any scraper, whatever its page counter and whatever
    the world does.  It never removes or changes a record already in the
    accumulator: the records at the end are those at the start followed by
    the ones appended.  The ZIP code is unchanged and the page counter has
    only moved up, at most to 6 when it started below. *)
Theorem run_only_appends (w : world) (s : scraper) :
  exists r s' recs,
    run w s = Some (r, s')
    /\ data s' = (data s ++ recs)%list
    /\ zipcode s' = zipcode s
    /\ page s <= page s' <= Z.max (page s) 6.
Proof.
  destruct (run_total w s) as (r & s' & E).
  destruct (run_appended (fun _ => True) (fun _ _ _ _ _ _ _ _ => I) w s _ E)
    as (recs & D & _).
  destruct (run_page_bounds w s _ E) as [Hz Hp].
  exists r, s', recs. auto.
Qed.

Lemma py_or_filled (x : string) : py_or x "N/A" <> "".
Proof. destruct x; discriminate. Qed.

(** X4.  In every record of the accumulator at the end of [run], whatever
    the pages held, the values under Bed, Bath, Sqft and Lot Size are
    non-empty texts: the placeholder stands in for an empty one.  These four
    columns of the file are never blank. *)
Theorem detail_fields_never_blank (w : world) (zip : Z) :
  exists r s',
    run w (init zip) = Some (r, s')
    /\ Forall
         (fun rec =>
            filled "Bed" rec /\ filled "Bath" rec /\ filled "Sqft" rec
            /\ filled "Lot Size" rec)
         (data s').
Proof.
  destruct (run_total w (init zip)) as (r & s' & E).
  exists r, s'. split; [exact E|].
  eapply run_appended in E.
  - destruct E as (recs & D & F). simpl in D. rewrite D. exact F.
  - intros link status price bed bath sqft lot_size address.
    unfold filled. simpl.
    repeat split; eexists; (split; [reflexivity | apply py_or_filled]).
Qed.

(** ** The navigations of a run *)

Section Emitted.

Variable Q : event -> Prop.

Lemma emitted_refl (s : scraper) : emitted Q s s.
Proof. exists []. now rewrite app_nil_r. Qed.

Lemma emitted_trans (s1 s2 s3 : scraper) :
  emitted Q s1 s2 -> emitted Q s2 s3 -> emitted Q s1 s3.
Proof.
  intros (e1 & T1 & F1) (e2 & T2 & F2). exists (e1 ++ e2)%list. split.
  - rewrite T2, T1. now rewrite <- app_assoc.
  - apply Forall_app; auto.
Qed.

Lemma emitted_same_trace (s s' : scraper) :
  trace s' = trace s -> emitted Q s s'.
Proof. intros H. exists []. now rewrite app_nil_r. Qed.

Lemma emitted_call (ev : event) (s s' : scraper) :
  trace s' = (trace s ++ [ev])%list -> Q ev -> emitted Q s s'.
Proof. intros H HQ. exists [ev]. auto. Qed.

End Emitted.

Section Fetches.

Variable w : world.
Variable zip : Z.

Lemma fetching_refl (s : scraper) : fetching_for zip s s.
Proof.
  intros Hz Hp. split; [apply emitted_refl | split; [exact Hz | lia]].
Qed.

Lemma fetching_trans (s1 s2 s3 : scraper) :
  fetching_for zip s1 s2 -> fetching_for zip s2 s3 ->
  fetching_for zip s1 s3.
Proof.
  intros H12 H23 Hz Hp.
  destruct (H12 Hz Hp) as (E12 & Hz2 & Hp2).
  destruct (H23 Hz2 ltac:(lia)) as (E23 & Hz3 & Hp3).
  split; [eapply emitted_trans; eauto | split; [exact Hz3 | lia]].
Qed.

(** A call that leaves ZIP code and counter alone and may be made. *)
Lemma fetching_call (ev : event) (s s' : scraper) :
  zipcode s' = zipcode s -> page s' = page s ->
  trace s' = (trace s ++ [ev])%list -> fetches_only zip ev ->
  fetching_for zip s s'.
Proof.
  intros Hz Hp Ht HQ Hzip Hpage.
  split; [eapply emitted_call; eauto | split; [congruence | lia]].
Qed.

Lemma fetching_load_page (s : scraper) :
  page s <= 5 -> fetching_for zip s (snd (load_page w default_retries s)).
Proof.
  intros Hle Hz Hp.
  assert (HQ : fetches_only zip (EvGet (get_page_url s))).
  { simpl. exists (page s). unfold get_page_url. rewrite Hz.
    split; [lia | reflexivity]. }
  revert Hz Hp. unfold load_page.
  apply (frame_load_page_loop (fetching_for zip) fetching_refl fetching_trans).
  - intros s0. now apply (fetching_call EvSleep).
  - intros s0.
    apply (fetching_call (EvGet (get_page_url s))); try reflexivity.
    exact HQ.
  - intros s0. now apply (fetching_call EvWait).
Qed.

Lemma fetching_scrape_data : preserves (fetching_for zip) (scrape_data w).
Proof.
  apply (frame_scrape_data (fetching_for zip) fetching_refl fetching_trans).
  - intros s0. now apply (fetching_call EvSleep).
  - intros s0. now apply (fetching_call EvFindElements).
  - intros prop s0. now apply (fetching_call EvScroll).
  - intros link status price bed bath sqft lot_size address s0 Hz Hp.
    split; [now apply emitted_same_trace | split; [exact Hz | simpl; lia]].
Qed.

Lemma fetching_run (s : scraper) (out : result unit * scraper) :
  run w s = Some out -> fetching_for zip s (snd out).
Proof.
  apply (frame_run (fetching_for zip) fetching_refl fetching_trans).
  - intros s0 Hle Hz Hp.
    split; [now apply emitted_same_trace | split; [exact Hz | simpl; lia]].
  - apply fetching_load_page.
  - apply fetching_scrape_data.
  - intros ev s0 Hev. apply (fetching_call ev); try reflexivity.
    destruct ev; try discriminate; exact I.
Qed.

End Fetches.

(** X5.  Every URL [run] navigates to is a result page of the scraper's ZIP
    code with a page number from 1 to 5: the base path, the ZIP code,
    [/pg-] and the number.  The browser is sent nowhere else. *)
Theorem run_fetches_only_result_pages (w : world) (zip : Z) :
  exists r s',
    run w (init zip) = Some (r, s')
    /\ forall url,
         In (EvGet url) (trace s') ->
         exists p,
           1 <= p <= 5
           /\ url = base_url ++ str_int zip ++ "/pg-" ++ str_int p.
Proof.
  destruct (run_total w (init zip)) as (r & s' & E).
  exists r, s'. split; [exact E|].
  destruct (fetching_run w zip _ _ E) as ((evs & T & F) & _).
  - reflexivity.
  - simpl. lia.
  - simpl in T. rewrite T. intros url Hin.
    rewrite Forall_forall in F. exact (F _ Hin).
Qed.

(** ** The budget of a run *)

Section Budget.

Variable w : world.

(** One pass through the [try] of [load_page] makes one navigation, however
    it ends. *)
Lemma load_attempt_one_navigation (url : string) (s : scraper) :
  navigations (snd (try_except (load_attempt w url) (fun _ => ret None) s))
  = S (navigations s).
Proof.
  unfold try_except, load_attempt, bind, sleep, driver_get,
    wait_until_container, ret.
  simpl.
  destruct (get_result w (navigations s) url) as [[]|e]; simpl.
  - destruct (wait_result w (S (navigations s))) as [[]|e]; simpl; auto.
    destruct (is_Exception e); reflexivity.
  - destruct (is_Exception e); reflexivity.
Qed.

(** [load_page] makes no more navigations than it has retry values, in any
    world. *)
Lemma load_page_loop_navigations (url : string) (retry_values : list Z)
    (s : scraper) :
  (navigations (snd (load_page_loop w url retry_values s))
   <= navigations s + List.length retry_values)%nat.
Proof.
  revert s. induction retry_values as [|r rest IH]; intros s; simpl.
  - lia.
  - unfold bind at 1.
    pose proof (load_attempt_one_navigation url s) as H1.
    destruct (try_except (load_attempt w url) (fun _ => ret None) s)
      as [[[b|]|e] s1]; simpl in *.
    + lia.
    + specialize (IH s1). lia.
    + lia.
Qed.

(** The calls of one [load_page] of the loop: at most three navigations and
    no listing of cards. *)
Lemma load_page_budget (s : scraper) :
  exists evs,
    trace (snd (load_page w default_retries s)) = (trace s ++ evs)%list
    /\ (count_gets evs <= 3)%nat
    /\ count_finds evs = 0%nat.
Proof.
  destruct (stepped_load_page w default_retries s) as [[_ _ (evs & T & _ & N)] _].
  destruct (unlisted_load_page w default_retries s) as (evs' & T' & C).
  rewrite T in T'. apply app_inv_head in T'. subst evs'.
  exists evs. split; [exact T|]. split; [|exact C].
  pose proof (load_page_loop_navigations (get_page_url s)
                (range 1 (default_retries + 1)) s) as Hn.
  unfold load_page in N. rewrite range_length in Hn.
  change (Z.to_nat (default_retries + 1 - 1)) with 3%nat in Hn. lia.
Qed.

(** The calls of one [scrape_data]: no navigation and one listing. *)
Lemma scrape_data_budget (s : scraper) :
  exists evs,
    trace (snd (scrape_data w s)) = (trace s ++ evs)%list
    /\ count_gets evs = 0%nat
    /\ count_finds evs = 1%nat.
Proof.
  destruct (stepped_scrape_data w s) as [[_ _ (evs & T & _ & N)] _].
  destruct (scrape_data_lists_once w s) as (evs' & T' & C).
  rewrite T in T'. apply app_inv_head in T'. subst evs'.
  exists evs. split; [exact T|]. split; [|exact C].
  pose proof (scrape_data_keeps_navigations w s) as K.
  unfold keeps_navigations in K. lia.
Qed.

(** The loop spends at most three navigations and one listing on each page
    left. *)
Lemma run_loop_budget (fuel : nat) (s : scraper)
    (out : result unit * scraper) :
  run_loop w fuel s = Some out ->
  exists evs,
    trace (snd out) = (trace s ++ evs)%list
    /\ (count_gets evs <= 3 * Z.to_nat (6 - page s))%nat
    /\ (count_finds evs <= Z.to_nat (6 - page s))%nat.
Proof.
  revert s. induction fuel as [|fuel IH]; intros s; simpl run_loop;
    destruct (page s <=? 5) eqn:Hguard; try discriminate;
    try (intros E; inversion E; exists []; rewrite app_nil_r;
         cbn [snd count_gets count_finds]; repeat split; lia).
  apply Z.leb_le in Hguard.
  destruct (load_page_budget s) as (e1 & T1 & G1 & F1).
  destruct (stepped_load_page w default_retries s) as [_ P1].
  destruct (load_page w default_retries s) as [[[|]|e] s1];
    simpl in T1, P1;
    try (intros E; inversion E; exists e1; cbn [snd];
         repeat split; [exact T1 | lia | lia]).
  destruct (scrape_data_budget s1) as (e2 & T2 & G2 & F2).
  destruct (stepped_scrape_data w s1) as [_ P2].
  destruct (scrape_data w s1) as [[[]|e] s2]; simpl in T2, P2.
  - intros E. destruct (IH _ E) as (e3 & T3 & G3 & F3).
    cbn [page set_page trace] in T3, G3, F3.
    exists (e1 ++ e2 ++ e3)%list. split; [|split].
    + rewrite T3, T2, T1. now rewrite <- !app_assoc.
    + rewrite !count_gets_app. lia.
    + rewrite !count_finds_app. lia.
  - intros E. inversion E. exists (e1 ++ e2)%list. cbn [snd].
    split; [|split].
    + rewrite T2, T1. now rewrite <- app_assoc.
    + rewrite count_gets_app. lia.
    + rewrite count_finds_app. lia.
Qed.

End Budget.

(** X6.  Whatever the world does, a [run] makes at most fifteen navigations
    (three attempts for each of five pages) and lists the cards of a page at
    most five times. *)
Theorem run_budget (w : world) (zip : Z) :
  exists r s',
    run w (init zip) = Some (r, s')
    /\ (count_gets (trace s') <= 15)%nat
    /\ (count_finds (trace s') <= 5)%nat.
Proof.
  destruct (run_from_init w zip) as (r & s1 & Eloop & _ & E).
  destruct (run_loop_budget w 5 (init zip) _ Eloop) as (evs & T & G & F).
  cbn [snd init trace page] in T, G, F. rewrite app_nil_l in T.
  change (Z.to_nat (6 - 1)) with 5%nat in G, F.
  destruct r as [[]|e].
  - unfold save_output in E. cbn [record_event data] in E.
    destruct (data s1); eexists; eexists; (split; [exact E|]);
      cbn [to_csv snd record_event trace]; rewrite T;
      rewrite ?count_gets_app, ?count_finds_app; simpl; lia.
  - eexists. eexists. split; [exact E|].
    cbn [record_event trace]. rewrite T.
    rewrite ?count_gets_app, ?count_finds_app. simpl. lia.
Qed.

(** ** When no page loads *)

(** X7.  When the three attempts at page 1 all fail with instances of
    [Exception], [run] returns normally after exactly three navigations: it
    never lists the cards of a page, the page counter stays at 1, the
    accumulator stays empty, the browser is released and no file is
    written. *)
Theorem run_when_first_page_fails (w : world) (zip : Z) :
  loads_catchable w ->
  (forall k, (k < 3)%nat ->
     attempt_succeeds w (get_page_url (init zip)) k = false) ->
  exists s',
    run w (init zip) = Some (Ret tt, s')
    /\ page s' = 1
    /\ data s' = []
    /\ count_gets (trace s') = 3%nat
    /\ count_finds (trace s') = 0%nat
    /\ List.last (trace s') EvSleep = EvQuit
    /\ writes (trace s') = [].
Proof.
  intros Hw Hfail.
  destruct (load_page_loop_first_success w (get_page_url (init zip)) Hw
              (range 1 (default_retries + 1)) (init zip))
    as (b & s1 & E & Ht & Hf).
  fold (load_page w default_retries (init zip)) in E.
  destruct b.
  { destruct (Ht eq_refl) as (k & Hk & Hok & _).
    rewrite range_length in Hk. simpl in Hok.
    rewrite (Hfail k Hk) in Hok. discriminate. }
  destruct (Hf eq_refl) as (_ & Hn). rewrite range_length in Hn.
  change (navigations (init zip) + Z.to_nat (default_retries + 1 - 1))%nat
    with 3%nat in Hn.
  destruct (stepped_load_page w default_retries (init zip))
    as [[_ _ (evs & T & B & N)] P].
  destruct (unlisted_load_page w default_retries (init zip))
    as (evs' & T' & C).
  pose proof (load_page_keeps_data w default_retries (init zip)) as D.
  unfold keeps_data in D. rewrite E in T, N, P, T', D.
  cbn [snd init trace navigations page data] in T, N, P, T', D.
  rewrite app_nil_l in T, T'. rewrite T in T'. subst evs'.
  exists (record_event EvQuit s1). split.
  - unfold run. change (Z.to_nat (6 - page (init zip))) with 5%nat.
    simpl run_loop. rewrite E. unfold driver_quit, save_output.
    cbn [data record_event]. now rewrite D.
  - cbn [record_event page data trace]. rewrite T.
    rewrite count_gets_app, count_finds_app, writes_app, last_last.
    rewrite (writes_browsing evs B). simpl. repeat split; auto; lia.
Qed.

Lemma run_when_first_page_fails_witness :
  exists s',
    run
      {| get_result := fun _ _ => Raise (Exc "WebDriverException");
         wait_result := fun _ => Ret tt;
         find_elements_result := fun _ => Ret [full_card] |}
      (init 75034) = Some (Ret tt, s')
    /\ page s' = 1
    /\ data s' = []
    /\ count_gets (trace s') = 3%nat
    /\ count_finds (trace s') = 0%nat
    /\ List.last (trace s') EvSleep = EvQuit
    /\ writes (trace s') = [].
Proof.
  apply run_when_first_page_fails.
  - split; intros; reflexivity.
  - intros k _. reflexivity.
Defined.

(** X8.  With [retries] at zero or below [load_page] makes no attempt: it
    returns [False] and leaves the scraper and the browser untouched, in any
    world. *)
Theorem load_page_without_retries (w : world) (retries : Z) (s : scraper) :
  retries <= 0 -> load_page w retries s = (Ret false, s).
Proof.
  intros H. unfold load_page, range.
  replace (Z.to_nat (retries + 1 - 1)) with 0%nat by lia.
  reflexivity.
Qed.

Lemma load_page_without_retries_witness :
  load_page slow_start_world (-2) (init 75034) = (Ret false, init 75034).
Proof. apply load_page_without_retries. lia. Defined.

(** ** The rows of the file *)

(** The cells of a record with the eight keys, read by column name. *)
Lemma lookup_cells (r : record) :
  has_fields r -> map (fun c => lookup c r) field_names = cells r.
Proof.
  unfold has_fields, field_names. intros H.
  repeat (destruct r as [|[? ?] r]; simpl in H; try discriminate).
  injection H as -> -> -> -> -> -> -> ->. reflexivity.
Qed.

Lemma rows_cells (r0 : record) (recs : list record) :
  Forall has_fields (r0 :: recs) ->
  rows (DataFrame (r0 :: recs)) = map cells (r0 :: recs).
Proof.
  intros F. unfold DataFrame. cbn [rows].
  rewrite (columns_field_names r0 recs F).
  apply map_ext_in. intros r Hin. apply lookup_cells.
  rewrite Forall_forall in F. now apply F.
Qed.

(** X9.  The file [run] writes holds the accumulator row by row: the row of
    a record is the list of its eight values, in the order of the field
    names, none of them missing. *)
Theorem output_rows_are_the_records (w : world) (zip : Z) :
  exists r s',
    run w (init zip) = Some (r, s')
    /\ forall path t,
         In (path, t) (writes (trace s')) ->
         rows t = map (map (fun kv => Some (snd kv))) (data s')
         /\ Forall (fun row => List.length row = 8%nat) (rows t).
Proof.
  destruct (run_from_init w zip)
    as (r & s1 & _ & [_ (recs & D & F) (evs & T & B & _)] & E).
  cbn [init data trace] in D, T. rewrite app_nil_l in D, T.
  assert (Hquit : writes (trace (record_event EvQuit s1)) = []).
  { simpl. rewrite T, writes_app, (writes_browsing evs B). reflexivity. }
  destruct r as [[]|e].
  - unfold save_output in E. cbn [record_event data] in E. rewrite D in E.
    destruct recs as [|r0 recs].
    + eexists. eexists. split; [exact E|]. rewrite Hquit. intros path t [].
    + eexists. eexists. split; [exact E|].
      cbn [to_csv snd record_event data trace].
      rewrite D, writes_app. simpl in Hquit. rewrite Hquit.
      intros path t [Heq|[]]. inversion Heq; subst.
      rewrite (rows_cells r0 recs F). split; [reflexivity|].
      apply Forall_map. revert F. apply Forall_impl. intros r Hr.
      unfold cells. rewrite length_map, <- (length_map fst), Hr.
      reflexivity.
  - eexists. eexists. split; [exact E|]. rewrite Hquit. intros path t [].
Qed.

(** ** The address: [' '.join(text.split())] *)

Module Address.

Lemma chars_app (a b : string) :
  list_ascii_of_string (a ++ b)
  = (list_ascii_of_string a ++ list_ascii_of_string b)%list.
Proof. induction a as [|c a IH]; simpl; [auto | now rewrite IH]. Qed.

Lemma string_of_rev_rev (w : string) :
  string_of_list_ascii (List.rev (List.rev (list_ascii_of_string w))) = w.
Proof. rewrite rev_involutive. apply string_of_list_ascii_of_string. Qed.

(** Reading a word moves its characters to the run being read. *)
Lemma split_from_word (acc : list ascii) (w rest : string) :
  Forall (fun c => isspace c = false) (list_ascii_of_string w) ->
  split_from acc (w ++ rest)
  = split_from (List.rev (list_ascii_of_string w) ++ acc) rest.
Proof.
  revert acc. induction w as [|c w IH]; intros acc H; simpl.
  - reflexivity.
  - inversion H as [|? ? Hc Hw]; subst. rewrite Hc, (IH _ Hw).
    now rewrite <- app_assoc.
Qed.

Lemma split_from_end (acc : list ascii) :
  acc <> [] ->
  split_from acc "" = [string_of_list_ascii (List.rev acc)].
Proof. destruct acc; [congruence | reflexivity]. Qed.

Lemma split_from_space (acc : list ascii) (c : ascii) (rest : string) :
  acc <> [] -> isspace c = true ->
  split_from acc (String c rest)
  = string_of_list_ascii (List.rev acc) :: split_from [] rest.
Proof.
  intros Hacc Hc. simpl. rewrite Hc. destruct acc; [congruence | reflexivity].
Qed.

Lemma rev_chars_nonempty (w : string) :
  w <> "" -> List.rev (list_ascii_of_string w) <> [].
Proof.
  destruct w as [|c w]; [congruence|]. simpl. intros _ H.
  apply app_eq_nil in H. destruct H as [_ H]. discriminate.
Qed.

(** [split] cuts a text into words. *)
Lemma split_from_words (acc : list ascii) (s : string) :
  Forall (fun c => isspace c = false) acc ->
  Forall word (split_from acc s).
Proof.
  assert (Hword : forall a l,
            Forall (fun c => isspace c = false) (a :: l) ->
            word (string_of_list_ascii (List.rev (a :: l)))).
  { intros a l H. split.
    - intros E.
      apply (f_equal list_ascii_of_string) in E.
      rewrite list_ascii_of_string_of_list_ascii in E. simpl in E.
      apply app_eq_nil in E. destruct E as [_ E]. discriminate.
    - rewrite list_ascii_of_string_of_list_ascii. now apply Forall_rev. }
  revert acc. induction s as [|c s IH]; intros acc Hacc; simpl.
  - destruct acc as [|a l]; constructor; auto.
  - destruct (isspace c) eqn:Hc.
    + destruct acc as [|a l]; [now apply IH|].
      constructor; [now apply Hword | now apply IH].
    + apply IH. now constructor.
Qed.

(** Splitting the words joined by single spaces gives the words back. *)
Lemma split_join (ws : list string) :
  Forall word ws -> split (join " " ws) = ws.
Proof.
  unfold split. induction 1 as [|w ws [Hne Hw] Hws IH]; [reflexivity|].
  destruct ws as [|w2 ws].
  - simpl. rewrite <- (Url.app_empty_r w) at 1.
    rewrite (split_from_word [] w "" Hw), app_nil_r.
    rewrite (split_from_end _ (rev_chars_nonempty w Hne)).
    now rewrite string_of_rev_rev.
  - change (join " " (w :: w2 :: ws))
      with (w ++ String " " (join " " (w2 :: ws))).
    rewrite (split_from_word [] w _ Hw), app_nil_r.
    rewrite (split_from_space _ " " _ (rev_chars_nonempty w Hne) eq_refl).
    now rewrite string_of_rev_rev, IH.
Qed.

Lemma tidy_after_word (p : bool) (w rest : string) :
  word w -> tidy_after p (w ++ rest) = tidy_after false rest.
Proof.
  intros [Hne Hw]. revert p. induction w as [|c w IH]; intros p.
  - congruence.
  - inversion Hw as [|? ? Hc Hw']; subst. simpl. rewrite Hc.
    destruct w as [|c' w]; [reflexivity|]. apply IH; [discriminate | exact Hw'].
Qed.

Lemma tidy_after_join (ws : list string) :
  ws <> [] -> Forall word ws -> tidy_after true (join " " ws) = true.
Proof.
  intros Hne H. induction H as [|w ws Hw Hws IH]; [congruence|].
  destruct ws as [|w2 ws].
  - simpl. rewrite <- (Url.app_empty_r w). now rewrite tidy_after_word.
  - change (join " " (w :: w2 :: ws))
      with (w ++ String " " (join " " (w2 :: ws))).
    rewrite (tidy_after_word _ _ _ Hw). simpl. apply IH. discriminate.
Qed.

Lemma join_nonempty (w : string) (ws : list string) :
  word w -> join " " (w :: ws) <> "".
Proof.
  intros [Hne _]. destruct w as [|c w]; [congruence|].
  destruct ws; simpl; discriminate.
Qed.

Lemma letters_app (a b : string) :
  letters (a ++ b) = (letters a ++ letters b)%list.
Proof. unfold letters. now rewrite chars_app, filter_app. Qed.

Lemma letters_word (w : string) : word w -> letters w = list_ascii_of_string w.
Proof.
  intros [_ Hw]. unfold letters.
  induction Hw as [|c l Hc _ IH]; simpl; [reflexivity|].
  now rewrite Hc, IH.
Qed.

Lemma letters_join (ws : list string) :
  Forall word ws ->
  letters (join " " ws) = List.concat (map list_ascii_of_string ws).
Proof.
  induction 1 as [|w ws Hw Hws IH]; [reflexivity|].
  destruct ws as [|w2 ws].
  - simpl. rewrite app_nil_r. now apply letters_word.
  - change (join " " (w :: w2 :: ws))
      with (w ++ String " " (join " " (w2 :: ws))).
    rewrite letters_app, (letters_word w Hw).
    change (letters (String " " (join " " (w2 :: ws))))
      with (letters (join " " (w2 :: ws))).
    now rewrite IH.
Qed.

Lemma letters_split_from (acc : list ascii) (s : string) :
  List.concat (map list_ascii_of_string (split_from acc s))
  = (List.rev acc ++ letters s)%list.
Proof.
  revert acc. induction s as [|c s IH]; intros acc.
  - simpl. destruct acc as [|a l]; [reflexivity|].
    cbn [map List.concat]. rewrite list_ascii_of_string_of_list_ascii.
    unfold letters. simpl. now rewrite !app_nil_r.
  - unfold letters. simpl. destruct (isspace c) eqn:Hc; simpl.
    + destruct acc as [|a l]; [apply IH|].
      cbn [map List.concat]. rewrite list_ascii_of_string_of_list_ascii.
      rewrite (IH []). reflexivity.
    + rewrite (IH (c :: acc)). simpl. now rewrite <- app_assoc.
Qed.

End Address.

(** X10.  The address stored for a listing is tidy whatever text the page
    gave: it is empty, or it starts and ends with a non-whitespace character
    and each whitespace character in it is a single plain space between two
    words.  It is empty exactly when the text had no non-whitespace
    character. *)
Theorem address_is_tidy (text : string) :
  tidy (join " " (split text)) = true
  /\ (join " " (split text) = "" <-> letters text = []).
Proof.
  pose proof (Address.split_from_words [] text (Forall_nil _)) as Hwords.
  pose proof (Address.letters_split_from [] text) as Hletters.
  fold (split text) in Hwords, Hletters. simpl in Hletters.
  destruct (split text) as [|w ws] eqn:Esplit.
  - split; [reflexivity|]. split; auto.
  - split.
    + pose proof (Address.join_nonempty w ws (Forall_inv Hwords)) as Hne.
      unfold tidy. destruct (join " " (w :: ws)) eqn:Ejoin; [reflexivity|].
      rewrite <- Ejoin. now apply Address.tidy_after_join.
    + split.
      * intros E. now apply Address.join_nonempty in E; [|apply (Forall_inv Hwords)].
      * intros E. rewrite <- Hletters in E. exfalso.
        destruct (Forall_inv Hwords) as [Hne _].
        destruct w as [|c w]; [congruence | discriminate E].
Qed.

(** X11.  Normalising the address keeps its words and is idempotent: the
    stored address splits into the same words as the text of the page, and
    normalising it again changes nothing. *)
Theorem address_normalisation_is_idempotent (text : string) :
  split (join " " (split text)) = split text
  /\ join " " (split (join " " (split text))) = join " " (split text).
Proof.
  assert (H : split (join " " (split text)) = split text).
  { apply Address.split_join. apply Address.split_from_words. constructor. }
  split; [exact H | now rewrite H].
Qed.

(** X12.  Normalising the address changes whitespace only: the
    non-whitespace characters of the stored address are those of the text
    of the page, in the same order. *)
Theorem address_keeps_its_letters (text : string) :
  letters (join " " (split text)) = letters text.
Proof.
  rewrite Address.letters_join.
  - unfold split. now rewrite Address.letters_split_from.
  - apply Address.split_from_words. constructor.
Qed.

(** ** The ZIP code on the command line *)

Module Argument.

Lemma rev_string_involutive (s : string) : rev_string (rev_string s) = s.
Proof.
  unfold rev_string.
  now rewrite list_ascii_of_string_of_list_ascii, rev_involutive,
    string_of_list_ascii_of_string.
Qed.

Lemma chars_rev_string (s : string) :
  list_ascii_of_string (rev_string s) = List.rev (list_ascii_of_string s).
Proof. unfold rev_string. apply list_ascii_of_string_of_list_ascii. Qed.

(** A text without whitespace is its own [strip]. *)
Lemma lstrip_plain (s : string) :
  Forall (fun c => int_space c = false) (list_ascii_of_string s) ->
  lstrip s = s.
Proof.
  destruct s as [|c s]; [reflexivity|]. simpl. intros H.
  inversion H as [|? ? Hc _]; subst. now rewrite Hc.
Qed.

Lemma strip_plain (s : string) :
  Forall (fun c => int_space c = false) (list_ascii_of_string s) ->
  strip s = s.
Proof.
  intros H. unfold strip. rewrite (lstrip_plain s H).
  rewrite lstrip_plain.
  - apply rev_string_involutive.
  - rewrite chars_rev_string. now apply Forall_rev.
Qed.

Lemma digit_not_space (c : ascii) : is_digit c = true -> int_space c = false.
Proof.
  unfold is_digit, int_space. cbv zeta.
  destruct (nat_of_ascii c) as [|n] eqn:E; [discriminate|].
  intros H. apply andb_prop in H. destruct H as [H1 H2].
  apply Nat.leb_le in H1, H2.
  repeat match goal with
         | |- context [(?a <=? ?b)%nat] =>
             destruct (Nat.leb_spec a b); try lia
         | |- context [(?a =? ?b)%nat] =>
             destruct (Nat.eqb_spec a b); try lia
         end; reflexivity.
Qed.

Lemma digits_of_uint (u : uint) :
  all_digits (NilEmpty.string_of_uint u) = true.
Proof. unfold all_digits. induction u; simpl; auto. Qed.

Lemma all_digits_plain (s : string) :
  all_digits s = true ->
  Forall (fun c => int_space c = false) (list_ascii_of_string s).
Proof.
  unfold all_digits. intros H. apply Forall_forall. intros c Hin.
  apply digit_not_space. rewrite forallb_forall in H. now apply H.
Qed.

Lemma scan_all_digits (s : string) :
  all_digits s = true -> scan_digits false s = Some s.
Proof.
  unfold all_digits. induction s as [|c s IH]; simpl; [reflexivity|].
  intros H. apply andb_prop in H. destruct H as [Hc Hs].
  now rewrite Hc, (IH Hs).
Qed.

Lemma int_digits_all_digits (s : string) :
  s <> "" -> all_digits s = true -> int_digits s = Some s.
Proof.
  intros Hne H. destruct s as [|c s]; [congruence|].
  unfold int_digits.
  assert (Hc : is_digit c = true).
  { unfold all_digits in H. simpl in H. now apply andb_prop in H. }
  rewrite Hc. now apply scan_all_digits.
Qed.

(** A digit is read as one more decimal digit. *)
Lemma uint_of_digit (c : ascii) (d : uint) :
  is_digit c = true -> exists d', uint_of_char c (Some d) = Some d'.
Proof.
  destruct c as [b0 b1 b2 b3 b4 b5 b6 b7].
  destruct b0, b1, b2, b3, b4, b5, b6, b7; try discriminate;
    intros _; eexists; reflexivity.
Qed.

Lemma uint_of_all_digits (s : string) :
  all_digits s = true -> exists d, NilEmpty.uint_of_string s = Some d.
Proof.
  unfold all_digits. induction s as [|c s IH]; simpl.
  - eauto.
  - intros H. apply andb_prop in H. destruct H as [Hc Hs].
    destruct (IH Hs) as (d & ->). now apply uint_of_digit.
Qed.

(** What [int] makes of a sign-free run of digits. *)
Lemma py_int_digits (limit : nat) (s : string) :
  s <> "" -> all_digits s = true ->
  limit = 0%nat \/ (String.length s <= limit)%nat ->
  exists d,
    NilEmpty.uint_of_string s = Some d
    /\ py_int limit s = Ret (Z.of_uint d)
    /\ py_int limit (String "-" s) = Ret (- Z.of_uint d).
Proof.
  intros Hne Hd Hlimit.
  destruct (uint_of_all_digits s Hd) as (d & Hu).
  assert (Hcheck : negb (limit =? 0)%nat && (limit <? String.length s)%nat
                   = false).
  { destruct Hlimit as [-> | Hle]; [reflexivity|].
    apply andb_false_iff. right. now apply Nat.ltb_ge. }
  exists d. split; [exact Hu|]. split.
  - unfold py_int. rewrite (strip_plain s (all_digits_plain s Hd)).
    destruct s as [|c s]; [congruence|].
    assert (Hc : is_digit c = true).
    { unfold all_digits in Hd. simpl in Hd. now apply andb_prop in Hd. }
    assert (Ebody :
              match String c s with
              | String "-" rest => (true, rest)
              | String "+" rest => (false, rest)
              | _ => (false, String c s)
              end = (false, String c s)).
    { destruct c as [b0 b1 b2 b3 b4 b5 b6 b7].
      destruct b0, b1, b2, b3, b4, b5, b6, b7; try reflexivity;
        discriminate Hc. }
    rewrite Ebody, (int_digits_all_digits _ Hne Hd), Hcheck, Hu.
    reflexivity.
  - unfold py_int. rewrite strip_plain.
    + rewrite (int_digits_all_digits _ Hne Hd), Hcheck, Hu. reflexivity.
    + simpl. constructor; [reflexivity | now apply all_digits_plain].
Qed.

(** [c] occurs in a text exactly when it occurs among its characters. *)
Lemma occurs_In (c : ascii) (s : string) :
  occurs c s = true <-> In c (list_ascii_of_string s).
Proof.
  induction s as [|x s IH]; simpl.
  - split; [discriminate | tauto].
  - rewrite orb_true_iff, IH. split; intros [H|H]; auto.
    + left. symmetry. now apply Ascii.eqb_eq.
    + left. apply Ascii.eqb_eq. auto.
Qed.

Lemma occurs_rev_string (c : ascii) (s : string) :
  occurs c (rev_string s) = true <-> occurs c s = true.
Proof. rewrite !occurs_In, chars_rev_string. symmetry. apply in_rev. Qed.

Lemma occurs_lstrip (c : ascii) (s : string) :
  int_space c = false -> occurs c s = true -> occurs c (lstrip s) = true.
Proof.
  intros Hc. induction s as [|x s IH]; simpl; [auto|].
  intros H. destruct (int_space x) eqn:Hx; [|exact H].
  apply orb_prop in H. destruct H as [H|H]; [|now apply IH].
  apply Ascii.eqb_eq in H. subst x. congruence.
Qed.

Lemma occurs_strip (c : ascii) (s : string) :
  int_space c = false -> occurs c s = true -> occurs c (strip s) = true.
Proof.
  intros Hc H. unfold strip.
  apply occurs_rev_string, occurs_lstrip; auto.
  apply occurs_rev_string, occurs_lstrip; auto.
Qed.

Lemma scan_digits_stranger (c : ascii) (p : bool) (s : string) :
  is_digit c = false -> c <> "_"%char -> occurs c s = true ->
  scan_digits p s = None.
Proof.
  intros Hd Hu. revert p. induction s as [|x s IH]; intros p; simpl.
  - discriminate.
  - intros H. apply orb_prop in H. destruct H as [H|H].
    + apply Ascii.eqb_eq in H. subst x. rewrite Hd.
      destruct (Ascii.eqb_spec c "_"); [contradiction | reflexivity].
    + destruct (is_digit x); [now rewrite (IH false H)|].
      destruct (Ascii.eqb x "_"); [|reflexivity].
      destruct p; [reflexivity | now apply IH].
Qed.

Lemma int_digits_stranger (c : ascii) (s : string) :
  is_digit c = false -> c <> "_"%char -> occurs c s = true ->
  int_digits s = None.
Proof.
  intros Hd Hu H. destruct s as [|x s]; [reflexivity|].
  unfold int_digits. destruct (is_digit x); [|reflexivity].
  now apply (scan_digits_stranger c).
Qed.

(** A text with a character that no number has is no number. *)
Lemma py_int_stranger (limit : nat) (c : ascii) (text : string) :
  occurs c text = true ->
  is_digit c = false -> int_space c = false ->
  c <> "_"%char -> c <> "+"%char -> c <> "-"%char ->
  py_int limit text = Raise ValueError.
Proof.
  intros Hocc Hd Hs Hu Hplus Hminus.
  pose proof (occurs_strip c text Hs Hocc) as H.
  unfold py_int. destruct (strip text) as [|x t] eqn:Et; [discriminate H|].
  assert (Hrest : Ascii.eqb c x = false -> occurs c t = true).
  { intros Hx. simpl in H. now rewrite Hx in H. }
  assert (Hbody :
            forall negative body,
              match String x t with
              | String "-" rest => (true, rest)
              | String "+" rest => (false, rest)
              | _ => (false, String x t)
              end = (negative, body) ->
              occurs c body = true).
  { intros negative body.
    destruct (Ascii.eqb_spec x "-") as [->|Hx1].
    - intros E. inversion E; subst. apply Hrest.
      now apply Ascii.eqb_neq.
    - destruct (Ascii.eqb_spec x "+") as [->|Hx2].
      + intros E. inversion E; subst. apply Hrest.
        now apply Ascii.eqb_neq.
      + intros E.
        assert (E' : (negative, body) = (false, String x t)).
        { rewrite <- E. clear - Hx1 Hx2.
          destruct x as [b0 b1 b2 b3 b4 b5 b6 b7].
          destruct b0, b1, b2, b3, b4, b5, b6, b7; try reflexivity;
            congruence. }
        inversion E'; subst. exact H. }
  destruct (match String x t with
            | String "-" rest => (true, rest)
            | String "+" rest => (false, rest)
            | _ => (false, String x t)
            end) as [negative body] eqn:Esign.
  rewrite (int_digits_stranger c body Hd Hu (Hbody _ _ eq_refl)).
  reflexivity.
Qed.

End Argument.

Lemma string_of_uint_nonempty (u : uint) :
  u <> Nil -> NilEmpty.string_of_uint u <> "".
Proof. destruct u; simpl; congruence. Qed.

(** X13.  The script scrapes the ZIP code it is given: for an integer [z]
    within the digit limit of the interpreter, the command-line argument
    [str(z)] is read back as [z], and the script does what [main(z)] does,
    whatever arguments follow. *)
Theorem script_reads_the_zip_code
    (h : host) (prog : string) (more : list string) (z : Z) :
  max_str_digits h = 0%nat
  \/ (String.length (str_int (Z.abs z)) <= max_str_digits h)%nat ->
  py_int (max_str_digits h) (str_int z) = Ret z
  /\ script h (prog :: str_int z :: more) = main h z.
Proof.
  intros Hlimit.
  assert (E : py_int (max_str_digits h) (str_int z) = Ret z).
  { generalize dependent (max_str_digits h). intros limit Hlimit.
    pose proof (of_to z) as Hz.
    unfold str_int in *. destruct z as [|p|p]; simpl in Hlimit, Hz |- *.
    - destruct (Argument.py_int_digits limit "0") as (d & Hu & E & _);
        auto; [discriminate|].
      simpl in Hu. inversion Hu; subst d. exact E.
    - destruct (Argument.py_int_digits limit
                  (NilEmpty.string_of_uint (Pos.to_uint p)))
        as (d & Hu & E & _); auto.
      + apply string_of_uint_nonempty, DecimalPos.Unsigned.to_uint_nonnil.
      + apply Argument.digits_of_uint.
      + rewrite NilEmpty.usu in Hu. inversion Hu; subst d.
        rewrite E. now rewrite Hz.
    - destruct (Argument.py_int_digits limit
                  (NilEmpty.string_of_uint (Pos.to_uint p)))
        as (d & Hu & _ & E); auto.
      + apply string_of_uint_nonempty, DecimalPos.Unsigned.to_uint_nonnil.
      + apply Argument.digits_of_uint.
      + rewrite NilEmpty.usu in Hu. inversion Hu; subst d.
        rewrite E. now rewrite Hz. }
  split; [exact E|]. unfold script. now rewrite E.
Qed.

Lemma script_reads_the_zip_code_witness :
  py_int 4300 (str_int (-75034)) = Ret (-75034)
  /\ script
       {| max_str_digits := 4300;
          chrome_result := fun _ => Ret tt;
          site := slow_start_world |}
       ["main.py"; str_int (-75034); "extra"]
     = main
         {| max_str_digits := 4300;
            chrome_result := fun _ => Ret tt;
            site := slow_start_world |}
         (-75034).
Proof.
  apply (script_reads_the_zip_code
           {| max_str_digits := 4300;
              chrome_result := fun _ => Ret tt;
              site := slow_start_world |}).
  right. vm_compute. lia.
Defined.

(** X14.  The ZIP code goes through [int], so a leading zero is lost: a
    non-empty run of digits and the same run with a zero in front are read
    as the same number, and the script does the same for both.  A ZIP code
    such as 02134 is scraped as 2134. *)
Theorem leading_zero_is_dropped
    (h : host) (prog : string) (more : list string) (digits : string) :
  digits <> "" ->
  all_digits digits = true ->
  max_str_digits h = 0%nat
  \/ (S (String.length digits) <= max_str_digits h)%nat ->
  py_int (max_str_digits h) (String "0" digits)
  = py_int (max_str_digits h) digits
  /\ script h (prog :: String "0" digits :: more)
     = script h (prog :: digits :: more).
Proof.
  intros Hne Hd Hlimit.
  assert (E : py_int (max_str_digits h) (String "0" digits)
              = py_int (max_str_digits h) digits).
  { destruct (Argument.py_int_digits (max_str_digits h) digits)
      as (d & Hu & E & _); auto.
    { destruct Hlimit; [auto | right; lia]. }
    destruct (Argument.py_int_digits (max_str_digits h) (String "0" digits))
      as (d' & Hu' & E' & _); auto.
    { discriminate. }
    simpl in Hu'. rewrite Hu in Hu'. simpl in Hu'. inversion Hu'; subst d'.
    rewrite E, E'. reflexivity. }
  split; [exact E|]. unfold script. now rewrite E.
Qed.

Lemma leading_zero_is_dropped_witness :
  py_int 4300 "02134" = py_int 4300 "2134"
  /\ script
       {| max_str_digits := 4300;
          chrome_result := fun _ => Ret tt;
          site := slow_start_world |}
       ["main.py"; "02134"]
     = script
         {| max_str_digits := 4300;
            chrome_result := fun _ => Ret tt;
            site := slow_start_world |}
         ["main.py"; "2134"].
Proof.
  apply (leading_zero_is_dropped
           {| max_str_digits := 4300;
              chrome_result := fun _ => Ret tt;
              site := slow_start_world |}
           "main.py" [] "2134").
  - discriminate.
  - reflexivity.
  - right. simpl. lia.
Defined.

(** A ZIP code of New England on the command line: the first page requested
    is the one of 2134. *)
Example zip_02134 :
  py_int 4300 "02134" = Ret 2134
  /\ get_page_url (init 2134)
     = "https://www.realtor.com/realestateandhomes-search/2134/pg-1".
Proof. split; reflexivity. Qed.

(** X15.  An argument holding a character that is neither a digit, nor
    whitespace, nor an underscore, nor a sign is refused: [int] raises
    [ValueError] and the script ends there, on any machine, before a browser
    is started. *)
Theorem bad_zip_argument_aborts
    (h : host) (prog arg : string) (more : list string) (c : ascii) :
  occurs c arg = true ->
  is_digit c = false -> int_space c = false ->
  c <> "_"%char -> c <> "+"%char -> c <> "-"%char ->
  script h (prog :: arg :: more) = Some (Aborted ValueError).
Proof.
  intros Hocc Hd Hs Hu Hplus Hminus. unfold script.
  now rewrite (Argument.py_int_stranger _ c arg).
Qed.

Lemma bad_zip_argument_aborts_witness :
  script
    {| max_str_digits := 4300;
       chrome_result := fun _ => Ret tt;
       site := slow_start_world |}
    ["main.py"; "75034 TX"]
  = Some (Aborted ValueError).
Proof.
  apply (bad_zip_argument_aborts _ "main.py" "75034 TX" [] "T");
    try reflexivity; discriminate.
Defined.

(** X16.  Once the browser has started, [main] ends normally whatever
    Selenium errors the site causes: [run] returns, for the ZIP code given,
    with the page counter between 1 and 6 and the browser released. *)
Theorem main_ends_normally (h : host) (zip : Z) :
  chrome_result h CHROME_OPTIONS = Ret tt ->
  loads_catchable (site h) ->
  pages_catchable (site h) ->
  exists s',
    main h zip = Some (Ran (Ret tt) s')
    /\ zipcode s' = zip
    /\ 1 <= page s' <= 6
    /\ In EvQuit (trace s').
Proof.
  intros Hchrome Hloads Hpages.
  unfold main, new_scraper. simpl fold_left.
  change ["--no-first-run"; "--no-service-autorun";
          "--disable-blink-features=AutomationControlled"]
    with CHROME_OPTIONS.
  rewrite Hchrome.
  destruct (run_from_init (site h) zip) as (r & s1 & Eloop & _ & E).
  destruct (run_loop_exits (site h) Hloads Hpages 5 (init zip))
    as (s2 & _ & Eexit & _).
  { cbn [page init]. lia. }
  rewrite Eexit in Eloop. inversion Eloop; subst r s2.
  destruct (run_page_bounds (site h) (init zip) _ E) as [Hz Hp].
  rewrite E.
  destruct (save_output (record_event EvQuit s1)) as [r' s'] eqn:Esave.
  assert (Hsave : r' = Ret tt /\ In EvQuit (trace s')).
  { unfold save_output in Esave. cbn [data record_event] in Esave.
    destruct (data s1); inversion Esave; subst; split; auto;
      cbn [to_csv snd record_event trace]; rewrite ?in_app_iff; simpl; auto. }
  destruct Hsave as [-> Hquit]. simpl in Hz, Hp.
  exists s'. repeat split; auto; lia.
Qed.

Lemma main_ends_normally_witness :
  exists s',
    main
      {| max_str_digits := 4300;
         chrome_result := fun _ => Ret tt;
         site := slow_start_world |}
      75034 = Some (Ran (Ret tt) s')
    /\ zipcode s' = 75034
    /\ 1 <= page s' <= 6
    /\ In EvQuit (trace s').
Proof.
  apply (main_ends_normally
           {| max_str_digits := 4300;
              chrome_result := fun _ => Ret tt;
              site := slow_start_world |}).
  - reflexivity.
  - split; [reflexivity|]. intros [|[|n]]; reflexivity.
  - intros n. reflexivity.
Defined.

(** ** The pace of a run *)

Lemma paced_after_weaken (p : bool) (evs : list event) :
  paced_after false evs = true -> paced_after p evs = true.
Proof.
  destruct evs as [|[] evs]; simpl; auto. discriminate.
Qed.

Lemma paced_after_app (p : bool) (xs ys : list event) :
  paced_after p xs = true -> paced ys = true ->
  paced_after p (xs ++ ys) = true.
Proof.
  unfold paced. revert p.
  induction xs as [|x xs IH]; intros p Hx Hy; simpl.
  - now apply paced_after_weaken.
  - destruct x; simpl in Hx; auto.
    apply andb_prop in Hx. destruct Hx as [-> Hx]. simpl. auto.
Qed.

Lemma pacing_refl (s : scraper) : pacing s s.
Proof. exists []. now rewrite app_nil_r. Qed.

Lemma pacing_trans (s1 s2 s3 : scraper) :
  pacing s1 s2 -> pacing s2 s3 -> pacing s1 s3.
Proof.
  intros (e1 & T1 & P1) (e2 & T2 & P2). exists (e1 ++ e2)%list. split.
  - rewrite T2, T1. now rewrite <- app_assoc.
  - now apply paced_after_app.
Qed.

Lemma pacing_calls (evs : list event) (s s' : scraper) :
  trace s' = (trace s ++ evs)%list -> paced evs = true -> pacing s s'.
Proof. intros T P. now exists evs. Qed.

Section Pace.

Variable w : world.

(** One pass through the [try] of [load_page] sleeps, then navigates. *)
Lemma pacing_load_attempt (url : string) (s : scraper) :
  pacing s (snd (try_except (load_attempt w url) (fun _ => ret None) s)).
Proof.
  unfold try_except, load_attempt, bind, sleep, driver_get,
    wait_until_container, ret.
  simpl.
  destruct (get_result w (navigations s) url) as [[]|e]; simpl.
  - destruct (wait_result w (S (navigations s))) as [[]|e]; simpl;
      [|destruct (is_Exception e); simpl];
      apply (pacing_calls [EvSleep; EvGet url; EvWait]); simpl;
      now rewrite <- ?app_assoc.
  - destruct (is_Exception e); simpl;
      apply (pacing_calls [EvSleep; EvGet url]); simpl;
      now rewrite <- ?app_assoc.
Qed.

Lemma pacing_load_page_loop (url : string) (retry_values : list Z) :
  preserves pacing (load_page_loop w url retry_values).
Proof.
  induction retry_values as [|r rest IH]; intros s; simpl.
  - apply pacing_refl.
  - unfold bind at 1. pose proof (pacing_load_attempt url s) as H1.
    destruct (try_except (load_attempt w url) (fun _ => ret None) s)
      as [[[b|]|e] s1]; simpl in *; auto.
    eapply pacing_trans; [exact H1 | apply IH].
Qed.

Lemma pacing_scrape_data : preserves pacing (scrape_data w).
Proof.
  apply (frame_scrape_data pacing pacing_refl pacing_trans).
  - intros s0. now apply (pacing_calls [EvSleep]).
  - intros s0. now apply (pacing_calls [EvFindElements]).
  - intros prop s0. now apply (pacing_calls [EvScroll]).
  - intros link status price bed bath sqft lot_size address s0.
    apply (pacing_calls []); simpl; [now rewrite app_nil_r | reflexivity].
Qed.

Lemma pacing_run (s : scraper) (out : result unit * scraper) :
  run w s = Some out -> pacing s (snd out).
Proof.
  apply (frame_run pacing pacing_refl pacing_trans).
  - intros s0 _. apply (pacing_calls []); simpl;
      [now rewrite app_nil_r | reflexivity].
  - intros s0 _. apply pacing_load_page_loop.
  - apply pacing_scrape_data.
  - intros ev s0 Hev. apply (pacing_calls [ev]); [reflexivity|].
    destruct ev; try discriminate; reflexivity.
Qed.

End Pace.

(** X17.  [run] never navigates without a pause: in the trace of a run every
    [driver.get] comes right after a [time.sleep], whatever the world does
    and however the attempts end. *)
Theorem run_sleeps_before_each_navigation (w : world) (zip : Z) :
  exists r s',
    run w (init zip) = Some (r, s')
    /\ paced (trace s') = true.
Proof.
  destruct (run_total w (init zip)) as (r & s' & E).
  exists r, s'. split; [exact E|].
  destruct (pacing_run w _ _ E) as (evs & T & P).
  simpl in T. now rewrite T.
Qed.

(** ** A run where every page loads *)

Section SmoothRun.

Variable w : world.
Hypothesis Hget : forall n url, get_result w n url = Ret tt.
Hypothesis Hwait : forall n, wait_result w n = Ret tt.
Hypothesis Hpages : pages_catchable w.

(** [load_page] succeeds at its first attempt. *)
Lemma load_page_first_attempt (s : scraper) :
  exists s1,
    load_page w default_retries s = (Ret true, s1)
    /\ navigations s1 = S (navigations s)
    /\ data s1 = data s
    /\ page s1 = page s.
Proof.
  unfold load_page. simpl range. simpl load_page_loop.
  unfold bind, try_except, load_attempt, bind, sleep, driver_get,
    wait_until_container, ret.
  simpl. rewrite Hget. simpl. rewrite Hwait. simpl.
  eexists. repeat split.
Qed.

(** [scrape_data] appends the records of the page on display. *)
Lemma scrape_data_records_at (s : scraper) :
  exists s2,
    scrape_data w s = (Ret tt, s2)
    /\ data s2 = (data s ++ records_at w (navigations s))%list
    /\ navigations s2 = navigations s
    /\ page s2 = page s.
Proof.
  pose proof (Hpages (navigations s)) as Hc.
  pose proof (scrape_data_keeps_navigations w s) as Hn.
  destruct (stepped_scrape_data w s) as [_ Hp].
  unfold keeps_navigations in Hn. revert Hn Hp.
  unfold scrape_data, try_except, bind, find_elements, records_at.
  destruct (find_elements_result w (navigations s)) as [props|e].
  - destruct (for_each_page_records props (record_event EvFindElements s) Hc)
      as (r & s' & E & Hr & D).
    rewrite E. destruct r as [[]|e]; [|simpl in Hr; rewrite Hr];
      intros Hn Hp; exists s'; auto.
  - rewrite Hc. intros Hn Hp. eexists. split; [reflexivity|].
    split; [simpl; now rewrite app_nil_r | auto].
Qed.

(** The loop scrapes the pages left, one navigation each. *)
Lemma run_loop_smooth (fuel : nat) (s : scraper) :
  (Z.to_nat (6 - page s) <= fuel)%nat ->
  exists s',
    run_loop w fuel s = Some (Ret tt, s')
    /\ page s' = Z.max (page s) 6
    /\ navigations s' = (navigations s + Z.to_nat (6 - page s))%nat
    /\ data s'
       = (data s
          ++ flat_map (records_at w)
               (seq (S (navigations s)) (Z.to_nat (6 - page s))))%list.
Proof.
  revert s. induction fuel as [|fuel IH]; intros s Hfuel; simpl run_loop;
    destruct (page s <=? 5) eqn:Hguard.
  - apply Z.leb_le in Hguard. lia.
  - apply Z.leb_gt in Hguard. exists s.
    replace (Z.to_nat (6 - page s)) with 0%nat by lia.
    simpl. rewrite app_nil_r. repeat split; lia.
  - apply Z.leb_le in Hguard.
    destruct (load_page_first_attempt s) as (s1 & E1 & N1 & D1 & P1).
    rewrite E1.
    destruct (scrape_data_records_at s1) as (s2 & E2 & D2 & N2 & P2).
    rewrite E2.
    destruct (IH (set_page (page s2 + 1) s2)) as (s' & E & P & N & D).
    { cbn [page set_page]. lia. }
    cbn [page set_page navigations data] in P, N, D.
    exists s'. split; [exact E|].
    replace (Z.to_nat (6 - page s))
      with (S (Z.to_nat (6 - (page s2 + 1)))) by lia.
    split; [lia|]. split; [lia|].
    rewrite D, D2, D1, N2, N1. simpl. now rewrite <- app_assoc.
  - apply Z.leb_gt in Hguard. exists s.
    replace (Z.to_nat (6 - page s)) with 0%nat by lia.
    simpl. rewrite app_nil_r. repeat split; lia.
Qed.

End SmoothRun.

(** X18.  When every navigation succeeds at once and the pages fail only
    with instances of [Exception], [run] loads each of the five pages with
    one navigation and returns with the page counter at 6; the accumulator
    holds the records of page 1, then those of page 2, and so on to page 5,
    and they are written to [output.csv] unless there is none. *)
Theorem run_collects_five_pages (w : world) (zip : Z) :
  (forall n url, get_result w n url = Ret tt) ->
  (forall n, wait_result w n = Ret tt) ->
  pages_catchable w ->
  exists s',
    run w (init zip) = Some (Ret tt, s')
    /\ page s' = 6
    /\ navigations s' = 5%nat
    /\ data s'
       = (records_at w 1 ++ records_at w 2 ++ records_at w 3
          ++ records_at w 4 ++ records_at w 5)%list
    /\ writes (trace s')
       = match data s' with
         | [] => []
         | _ :: _ => [("output.csv", DataFrame (data s'))]
         end.
Proof.
  intros Hget Hwait Hpages.
  destruct (run_from_init w zip)
    as (r & s1 & Eloop & [_ _ (evs & T & B & _)] & E).
  destruct (run_loop_smooth w Hget Hwait Hpages 5 (init zip))
    as (s2 & Esmooth & P & N & D).
  { cbn [page init]. lia. }
  rewrite Esmooth in Eloop. inversion Eloop; subst r s2.
  cbn [init page navigations data trace] in P, N, D, T.
  change (Z.to_nat (6 - 1)) with 5%nat in N, D.
  simpl in D. rewrite !app_nil_r in D. rewrite app_nil_l in T.
  assert (Hquit : writes (trace (record_event EvQuit s1)) = []).
  { simpl. rewrite T, writes_app, (writes_browsing evs B). reflexivity. }
  unfold save_output in E. cbn [record_event data] in E.
  destruct (data s1) as [|r0 recs] eqn:Edata.
  - exists (record_event EvQuit s1). split; [exact E|].
    cbn [record_event page navigations data]. rewrite Edata, Hquit.
    repeat split; auto.
  - eexists. split; [exact E|].
    cbn [to_csv snd record_event page navigations data trace].
    rewrite Edata, writes_app. simpl in Hquit. rewrite Hquit.
    repeat split; auto.
Qed.

Lemma run_collects_five_pages_witness :
  exists s',
    run (steady_world [full_card; card_without_price; card_with_blanks])
      (init 75034) = Some (Ret tt, s')
    /\ page s' = 6
    /\ navigations s' = 5%nat
    /\ data s'
       = (records_at
            (steady_world [full_card; card_without_price; card_with_blanks]) 1
          ++ records_at
               (steady_world [full_card; card_without_price; card_with_blanks]) 2
          ++ records_at
               (steady_world [full_card; card_without_price; card_with_blanks]) 3
          ++ records_at
               (steady_world [full_card; card_without_price; card_with_blanks]) 4
          ++ records_at
               (steady_world [full_card; card_without_price; card_with_blanks]) 5)%list
    /\ writes (trace s')
       = match data s' with
         | [] => []
         | _ :: _ => [("output.csv", DataFrame (data s'))]
         end.
Proof.
  apply run_collects_five_pages.
  - reflexivity.
  - reflexivity.
  - intros n. reflexivity.
Defined.
